(** * AI_IDS: the live-capture worker and its status endpoint

    A shallow embedding of [src/inference/live_capture_loop.py] (the
    background capture worker and its start/stop controls) and of the
    [live_status], [start_live], [stop_live] and [predict] handlers with
    [replace_nan_with_none] from [src/api/api_server.py].

    Module-level globals become the fields of one record that every
    function takes and returns.  What the worker cannot decide itself (what
    [sniff] captured, the clock, what other threads did to the flags while
    the worker was blocked) is read from a per-cycle environment.  The
    detection pipeline [run_pipeline] lives outside these two files and is a
    parameter of the development. *)

From Stdlib Require Import ZArith Bool List Lia.
From Stdlib Require Import Floats.SpecFloat.
From stdpp Require Import base option list strings gmap fin_maps pretty.

Set Warnings "-register-all".
Local Open Scope string_scope.

(** ** Python values *)

(** Exceptions (instances of [Exception]) carry their class name and
    message only. *)
Inductive exn : Type :=
| KeyError (key : string)
| ParserError (msg : string)
| PipelineError (msg : string)
| EmptyDataError (msg : string)
| ValueError (msg : string).

(** The outcome of a call that may raise. *)
Inductive result (A : Type) : Type :=
| Ok (a : A)
| Raise (e : exn).
Arguments Ok {A} a.
Arguments Raise {A} e.

(** A scalar as it sits in one cell of a pandas DataFrame, or comes out of
    it.  Floats are IEEE 754 values in the Standard Library's specification
    form, so not-a-number and the two infinities are ordinary inhabitants. *)
Inductive cell : Type :=
| CNone
| CBool (b : bool)
| CInt (z : Z)
| CFloat (f : spec_float)
| CStr (s : string).

(** Python objects that [to_dict(orient="records")] and
    [replace_nan_with_none] traffic in. *)
Inductive pyval : Type :=
| VNone
| VBool (b : bool)
| VInt (z : Z)
| VFloat (f : spec_float)
| VStr (s : string)
| VList (items : list pyval)
| VDict (items : list (string * pyval)).

(** A DataFrame: its column labels and its rows, each row holding one cell
    per column, in column order. *)
Record DataFrame : Type := mkDataFrame {
  df_columns : list string;
  df_rows : list (list cell)
}.

(** A network packet is opaque here; only how many were captured matters. *)
Inductive packet : Type := Packet (raw : list Z).

(** What a file under [live/] holds: a capture, the table its text parses
    to as CSV, or text that does not parse. *)
Inductive file : Type :=
| FPcap (pkts : list packet)
| FCsv (table : DataFrame)
| FMalformed (raw : string).

(** ** Module state of [live_capture_loop]

    [running], [loop_thread] and [last_capture_file] are the module's three
    globals.  The rest is the part of the outside world the module acts on:
    the files under [live/], how many worker threads were ever started (the
    next thread's identity) and the capture paths handed to the pipeline so
    far, most recent first. *)
Record World : Type := mkWorld {
  running : bool;
  loop_thread : option nat;
  last_capture_file : option string;
  fs : gmap string file;
  launched : nat;
  pipeline_calls : list string
}.

Definition set_running (b : bool) (w : World) : World :=
  mkWorld b (loop_thread w) (last_capture_file w) (fs w) (launched w)
          (pipeline_calls w).

Definition set_last_capture_file (n : string) (w : World) : World :=
  mkWorld (running w) (loop_thread w) (Some n) (fs w) (launched w)
          (pipeline_calls w).

Definition set_fs (d : gmap string file) (w : World) : World :=
  mkWorld (running w) (loop_thread w) (last_capture_file w) d (launched w)
          (pipeline_calls w).

Definition log_pipeline_call (p : string) (w : World) : World :=
  mkWorld (running w) (loop_thread w) (last_capture_file w) (fs w)
          (launched w) (p :: pipeline_calls w).

(** [threading.Thread(target=background_loop, daemon=True)] followed by
    [.start()]: the handle of a fresh thread is stored and the count of
    started workers grows by one. *)
Definition spawn_worker (w : World) : World :=
  mkWorld (running w) (Some (launched w)) (last_capture_file w) (fs w)
          (S (launched w)) (pipeline_calls w).

(** The state at import time. *)
Definition initial_world : World :=
  mkWorld false None None ∅ 0 [].

(** ** Start and stop *)

(** [start_capture]: a bare [return] (Python [None]) when already running,
    [True] after launching. *)
Definition start_capture (w : World) : World * option bool :=
  if running w then (w, None)
  else (spawn_worker (set_running true w), Some true).

(** [stop_capture]: clears the flag; the bounded [join] changes no state. *)
Definition stop_capture (w : World) : World * option bool :=
  (set_running false w, Some true).

Definition is_running (w : World) : bool := running w.

(** [last_capture_file if last_capture_file else None]: an empty name is
    falsy and reads as [None]. *)
Definition get_last_capture (w : World) : option string :=
  match last_capture_file w with
  | Some n => if String.eqb n "" then None else Some n
  | None => None
  end.

(** A control call made by another thread. *)
Inductive ctl : Type := CStart | CStop.

Definition apply_ctl (w : World) (c : ctl) : World :=
  match c with
  | CStart => fst (start_capture w)
  | CStop => fst (stop_capture w)
  end.

(** The control calls other threads complete while the worker is blocked. *)
Definition interfere (cs : list ctl) (w : World) : World :=
  fold_left apply_ctl cs w.

(** ** One capture cycle *)

(** What one iteration of the worker meets from outside: the packets
    [sniff] returns for a given timeout, the formatted clock reading, and
    the control calls other threads complete while the worker is blocked in
    [sniff], in [wrpcap], in the pipeline and in the loop's [sleep].  Other
    threads are taken to run only at these blocking calls, and [sniff] and
    [wrpcap] are taken to return normally: the one call that may raise here
    is the pipeline. *)
Record cycle_env : Type := mkEnv {
  sniff : Z -> list packet;
  ctl_sniff : list ctl;
  now : string;
  ctl_write : list ctl;
  ctl_pipeline : list ctl;
  ctl_sleep : list ctl
}.

Definition results_path : string := "live/live_predictions.csv".

Definition capture_name (timestamp : string) : string :=
  "capture_" ++ timestamp ++ ".pcap".

Definition capture_path (timestamp : string) : string :=
  "live/" ++ capture_name timestamp.

(** [wrpcap(path, packets)]. *)
Definition wrpcap (path : string) (pkts : list packet) (w : World) : World :=
  set_fs (<[path := FPcap pkts]> (fs w)) w.

(** How the worker ended, and how many capture cycles it began. *)
Inductive loop_outcome : Type :=
| Exited
| Crashed (e : exn)
| Pending.

Section Worker.

(** [run_pipeline(input_path, output_path, is_pcap)] from
    [inference.live_predict]: given the files, it leaves the files as it
    changed them and returns a table or raises. *)
Variable run_pipeline :
  gmap string file -> string -> string -> bool ->
  gmap string file * result DataFrame.

Definition capture_once (e : cycle_env) (duration : Z) (w : World)
  : World * result (option DataFrame) :=
  if negb (running w) then (w, Ok None)
  else
    let packets := sniff e duration in
    let w1 := interfere (ctl_sniff e) w in
    if (length packets =? 0)%nat || negb (running w1) then (w1, Ok None)
    else
      let pcap_path := capture_path (now e) in
      let w2 := set_last_capture_file (capture_name (now e)) w1 in
      let w3 := interfere (ctl_write e) (wrpcap pcap_path packets w2) in
      if negb (running w3) then (w3, Ok None)
      else
        let w4 := log_pipeline_call pcap_path w3 in
        let '(disk, r) := run_pipeline (fs w4) pcap_path results_path true in
        let w5 := interfere (ctl_pipeline e) (set_fs disk w4) in
        match r with
        | Ok df => (w5, Ok (Some df))
        | Raise x => (w5, Raise x)
        end.

(** The [while running:] loop.  One environment is consumed per
    iteration; [Pending] says the supplied environments ran out with the
    loop still going.  The count is the number of calls of
    [capture_once]. *)
Fixpoint loop (envs : list cycle_env) (w : World)
  : World * loop_outcome * nat :=
  if negb (running w) then (w, Exited, 0)
  else
    match envs with
    | [] => (w, Pending, 0)
    | e :: rest =>
      match capture_once e 10 w with
      | (w', Raise x) => (w', Crashed x, 1)
      | (w', Ok _) =>
        if negb (running w') then (w', Exited, 1)
        else
          let '(w'', o, n) := loop rest (interfere (ctl_sleep e) w') in
          (w'', o, S n)
      end
    end.

(** [background_loop]: its first statement is [running = True]. *)
Definition background_loop (envs : list cycle_env) (w : World)
  : World * loop_outcome * nat :=
  loop envs (set_running true w).

End Worker.

(** ** [start_capture], statement by statement

    The function has no lock: the test of [running] (line 59) and the
    assignment with the thread launch (lines 62 to 64) are separate
    statements, and another caller may run between them. *)
Inductive start_pc : Type :=
| AtTest
| AtLaunch
| Returned (r : option bool).

Definition start_step (w : World) (pc : start_pc) : World * start_pc :=
  match pc with
  | AtTest => if running w then (w, Returned None) else (w, AtLaunch)
  | AtLaunch => (spawn_worker (set_running true w), Returned (Some true))
  | Returned r => (w, Returned r)
  end.

(** Callers are numbered; a schedule names the caller that takes the next
    step. *)
Fixpoint run_schedule (sched : list nat) (w : World) (pcs : list start_pc)
  : World * list start_pc :=
  match sched with
  | [] => (w, pcs)
  | i :: rest =>
    match pcs !! i with
    | Some pc =>
      let '(w', pc') := start_step w pc in
      run_schedule rest w' (<[i := pc']> pcs)
    | None => run_schedule rest w pcs
    end
  end.

(** [n] calls of [start_capture], each finished before the next begins. *)
Fixpoint serial_starts (n : nat) (w : World) : World :=
  match n with
  | O => w
  | S k => serial_starts k (fst (start_capture w))
  end.

(** The schedule in which each of [n] callers takes both its steps in
    turn. *)
Definition serial_schedule (n : nat) : list nat :=
  flat_map (fun i => [i; i]) (seq 0 n).

(** ** The status endpoint *)

Definition is_nan (f : spec_float) : bool :=
  match f with
  | S754_nan => true
  | _ => false
  end.

(** [pd.isna] on a scalar. *)
Definition isna (c : cell) : bool :=
  match c with
  | CNone => true
  | CFloat f => is_nan f
  | _ => false
  end.

#[global] Instance spec_float_eq_dec : EqDecision spec_float.
Proof. solve_decision. Defined.

#[global] Instance cell_eq_dec : EqDecision cell.
Proof. solve_decision. Defined.

(** [df.replace({np.nan: None, pd.NA: None})]. *)
Definition nan_to_none (c : cell) : cell :=
  if isna c then CNone else c.

Definition df_replace_nan (df : DataFrame) : DataFrame :=
  mkDataFrame (df_columns df) (map (map nan_to_none) (df_rows df)).

(** Position of a column label. *)
Fixpoint column_index (name : string) (cols : list string) : option nat :=
  match cols with
  | [] => None
  | c :: rest =>
    if String.eqb c name then Some 0
    else option_map S (column_index name rest)
  end.

(** The cell of a row under column [i]; a row short of cells reads as
    missing there, the way [read_csv] pads it. *)
Definition row_get (r : list cell) (i : nat) : cell :=
  default (CFloat S754_nan) (r !! i).

(** [df[name]]: the column, or [KeyError]. *)
Definition df_getitem (df : DataFrame) (name : string) : result (list cell) :=
  match column_index name (df_columns df) with
  | Some i => Ok (map (fun r => row_get r i) (df_rows df))
  | None => Raise (KeyError name)
  end.

(** [df[df[name] == value]], for a column at position [i]. *)
Definition df_where_eq (df : DataFrame) (i : nat) (value : cell) : DataFrame :=
  mkDataFrame (df_columns df)
    (filter (fun r => row_get r i = value) (df_rows df)).

(** [Series.value_counts().to_dict()]: each distinct value that is not
    missing, with the number of times it occurs.  Keys are compared as the
    cells they are.  The pairs come in order of first occurrence; pandas
    orders them by count, which a dictionary lookup does not see. *)
Definition value_counts (xs : list cell) : list (cell * nat) :=
  let present := filter (fun c => isna c = false) xs in
  map (fun k => (k, count_occ cell_eq_dec present k)) (remove_dups present).

(** [d.get(key, 0)] on such a dictionary. *)
Fixpoint dict_get (d : list (cell * nat)) (key : cell) : nat :=
  match d with
  | [] => 0
  | (k, v) :: rest => if decide (k = key) then v else dict_get rest key
  end.

Definition cell_value (c : cell) : pyval :=
  match c with
  | CNone => VNone
  | CBool b => VBool b
  | CInt z => VInt z
  | CFloat f => VFloat f
  | CStr s => VStr s
  end.

(** [df.to_dict(orient="records")]: one dictionary per row, keyed by the
    column labels. *)
Definition to_records (df : DataFrame) : pyval :=
  VList (map (fun r =>
                VDict (imap (fun i c => (c, cell_value (row_get r i)))
                            (df_columns df)))
             (df_rows df)).

(** [replace_nan_with_none].  A Python [bool] is an [int], so it takes the
    integer branch and comes back as [int(obj)]. *)
Fixpoint replace_nan_with_none (obj : pyval) : pyval :=
  match obj with
  | VDict items =>
    VDict (map (fun kv => match kv with
                          | (k, v) => (k, replace_nan_with_none v)
                          end) items)
  | VList items => VList (map replace_nan_with_none items)
  | VFloat f => if is_nan f then VNone else VFloat f
  | VBool b => VInt (if b then 1 else 0)
  | VInt z => VInt z
  | VNone => VNone
  | VStr s => VStr s
  end.

(** [pd.read_csv(path)]: the table the file's text parses to.  An empty
    file has no columns to parse, and what is no CSV text is no table. *)
Definition read_csv (path : string) (f : file) : result DataFrame :=
  match f with
  | FCsv table =>
    match df_columns table with
    | [] => Raise (EmptyDataError "No columns to parse from file")
    | _ :: _ => Ok table
    end
  | FPcap _ => Raise (ParserError path)
  | FMalformed _ => Raise (ParserError path)
  end.

(** The dictionary [live_status] returns. *)
Record Snapshot : Type := mkSnapshot {
  snap_running : bool;
  snap_last_capture : option string;
  flows : Z;
  summary : gmap string Z;
  attack_types : gmap string Z;
  all_flows : pyval
}.

Section Status.

(** Python's [repr] of a float, whose digits are not worked out here. *)
Variable float_repr : spec_float -> string.

(** [str(k)]. *)
Definition py_str (c : cell) : string :=
  match c with
  | CNone => "None"
  | CBool b => if b then "True" else "False"
  | CInt z => pretty z
  | CFloat f => float_repr f
  | CStr s => s
  end.

(** [{str(k): int(v) for k, v in attack_counts.items()
      if pd.notna(k) and pd.notna(v)}]: a later pair with the same
    printed key replaces an earlier one. *)
Definition attack_dict (counts : list (cell * nat)) : gmap string Z :=
  fold_left (fun (m : gmap string Z) (kv : cell * nat) =>
               if isna (fst kv) then m
               else <[py_str (fst kv) := Z.of_nat (snd kv)]> m)
            counts ∅.

Definition live_status (w : World) : result Snapshot :=
  let running := is_running w in
  let last_capture := get_last_capture w in
  match fs w !! results_path with
  | None =>
    Ok (mkSnapshot running last_capture 0
          {[ "BENIGN" := 0%Z; "ANOMALY" := 0%Z; "ATTACK" := 0%Z ]}
          ∅ (VList []))
  | Some f =>
    match read_csv results_path f with
    | Raise x => Raise x
    | Ok table =>
    let df := df_replace_nan table in
    match df_getitem df "Label" with
    | Raise x => Raise x
    | Ok labels =>
      let summary := value_counts labels in
      let result_summary : gmap string Z :=
        {[ "BENIGN" := Z.of_nat (dict_get summary (CStr "BENIGN"));
           "ANOMALY" := Z.of_nat (dict_get summary (CStr "ANOMALY"));
           "ATTACK" := Z.of_nat (dict_get summary (CStr "ATTACK")) ]} in
      let attack_types : gmap string Z :=
        match column_index "Attack_Type" (df_columns df),
              column_index "Label" (df_columns df) with
        | Some a, Some l =>
          let attack_df := df_where_eq df l (CStr "ATTACK") in
          match df_rows attack_df with
          | [] => ∅
          | _ => attack_dict
                   (value_counts (map (fun r => row_get r a)
                                      (df_rows attack_df)))
          end
        | _, _ => ∅
        end in
      let all_flows := replace_nan_with_none (to_records (df_replace_nan df)) in
      Ok (mkSnapshot running last_capture
            (Z.of_nat (length (df_rows df)))
            result_summary attack_types all_flows)
    end
    end
  end.

End Status.

(** The response as the Python object handed to the JSON encoder. *)
Definition option_value (o : option string) : pyval :=
  match o with
  | Some s => VStr s
  | None => VNone
  end.

Definition counts_value (m : gmap string Z) : pyval :=
  VDict (map (fun kv => (fst kv, VInt (snd kv))) (map_to_list m)).

Definition response (s : Snapshot) : pyval :=
  VDict [ ("running", VBool (snap_running s));
          ("last_capture", option_value (snap_last_capture s));
          ("flows", VInt (flows s));
          ("summary", counts_value (summary s));
          ("attack_types", counts_value (attack_types s));
          ("all_flows", all_flows s) ].

(** ** Properties of values *)

(** Every float inside a value passes the test [p]. *)
Fixpoint all_floats (p : spec_float -> bool) (v : pyval) : bool :=
  match v with
  | VFloat f => p f
  | VList items => forallb (all_floats p) items
  | VDict items =>
    forallb (fun kv => match kv with (_, x) => all_floats p x end) items
  | _ => true
  end.

(** A float JSON can write down: a zero or a finite number. *)
Definition is_finite (f : spec_float) : bool :=
  match f with
  | S754_zero _ | S754_finite _ _ _ => true
  | S754_infinity _ | S754_nan => false
  end.

Definition no_nan (v : pyval) : bool := all_floats (fun f => negb (is_nan f)) v.

Definition json_finite (v : pyval) : bool := all_floats is_finite v.

(** ** Sample inputs *)

(** A pipeline that always raises. *)
Definition failing_pipeline (disk : gmap string file) (input output : string)
    (is_pcap : bool) : gmap string file * result DataFrame :=
  (disk, Raise (PipelineError "model not loaded")).

(** A pipeline that writes and returns a fixed table. *)
Definition constant_pipeline (table : DataFrame) (disk : gmap string file)
    (input output : string) (is_pcap : bool)
  : gmap string file * result DataFrame :=
  (<[output := FCsv table]> disk, Ok table).

(** A cycle that captures one packet with nobody touching the controls. *)
Definition quiet_cycle (timestamp : string) : cycle_env :=
  mkEnv (fun _ => [Packet [69%Z]]) [] timestamp [] [] [].

(** A cycle in which nothing is captured. *)
Definition empty_cycle (timestamp : string) : cycle_env :=
  mkEnv (fun _ => []) [] timestamp [] [] [].

(** A cycle during whose capture another thread calls [stop_capture]. *)
Definition stopped_cycle (timestamp : string) : cycle_env :=
  mkEnv (fun _ => [Packet [69%Z]]) [CStop] timestamp [] [] [].

(** The world once [start_capture] has run on a fresh module. *)
Definition started_world : World := fst (start_capture initial_world).

(** Three flows, as in the scenario of the specification. *)
Definition scenario_table : DataFrame :=
  mkDataFrame ["Flow Duration"; "Label"; "Attack_Type"]
    [ [CInt 12; CStr "BENIGN"; CFloat S754_nan];
      [CInt 40; CStr "ATTACK"; CStr "SYN-flood"];
      [CInt 7; CStr "BENIGN"; CFloat S754_nan] ].

(** One flow whose byte rate is infinite, as a zero-duration flow has. *)
Definition infinite_rate_table : DataFrame :=
  mkDataFrame ["Flow Bytes/s"; "Label"]
    [ [CFloat (S754_infinity false); CStr "BENIGN"] ].

Definition world_with_results (table : DataFrame) : World :=
  set_fs (<[results_path := FCsv table]> ∅) initial_world.

(** The attack-type cells of the rows labelled ATTACK, given the position
    [l] of the label column; none when the table has no [Attack_Type]
    column. *)
Definition attack_type_cells (table : DataFrame) (l : nat) : list cell :=
  match column_index "Attack_Type" (df_columns table) with
  | Some a =>
    map (fun r => row_get r a) (df_rows (df_where_eq table l (CStr "ATTACK")))
  | None => []
  end.

(** The cells of a column that are not missing. *)
Definition present (xs : list cell) : list cell :=
  filter (fun c => isna c = false) xs.

(** No other thread touches the controls during the cycle. *)
Definition quiet (e : cycle_env) : Prop :=
  ctl_sniff e = [] /\ ctl_write e = [] /\ ctl_pipeline e = [] /\
  ctl_sleep e = [].

(** The cycle gets past both early returns of [capture_once] (lines 17 and
    22): it was running, captured something, and was still running when
    [sniff] returned. *)
Definition past_capture_check (e : cycle_env) (duration : Z) (w : World)
  : bool :=
  running w && negb (length (sniff e duration) =? 0)%nat
  && running (interfere (ctl_sniff e) w).

(** ** The live-capture handlers of the server *)

(** [start_live]: calls [start_capture] and acknowledges. *)
Definition start_live (w : World) : World * pyval :=
  (fst (start_capture w), VDict [("status", VStr "live_capture_started")]).

(** [stop_live]: calls [stop_capture] and acknowledges. *)
Definition stop_live (w : World) : World * pyval :=
  (fst (stop_capture w), VDict [("status", VStr "live_capture_stopped")]).

(** A cycle during whose write of the raw capture another thread calls
    [stop_capture]. *)
Definition stop_during_write_cycle (timestamp : string) : cycle_env :=
  mkEnv (fun _ => [Packet [69%Z]]) [] timestamp [CStop] [] [].

(** A cycle during whose capture other threads call [stop_capture] and then
    [start_capture]. *)
Definition restart_cycle (timestamp : string) : cycle_env :=
  mkEnv (fun _ => [Packet [69%Z]]) [CStop; CStart] timestamp [] [] [].

(** A results table that lacks the label column. *)
Definition unlabelled_table : DataFrame :=
  mkDataFrame ["Flow Duration"] [ [CInt 12] ].

(** ** The upload endpoint

    [predict] of [api_server.py].  What the standard library and the
    framework compute is read from the request and from parameters: the
    lower-cased suffix pathlib finds in the file name comes with the upload,
    the two clock readings are arguments, and joining a directory with a
    name, taking the last component of a path and the size of a file are
    parameters, as are the text [str(e)] of an exception and the encoding
    of the response by [JSONResponse], which may raise.  Only files are in
    the file map, so [exists()] is a lookup. *)
Module Predict.

(** How a handler ends: with a response, with an [HTTPException], or with
    an exception nothing catches. *)
Inductive reply (A : Type) : Type :=
| Responds (a : A)
| HTTPException (status_code : Z) (detail : string)
| Uncaught (e : exn).
Arguments Responds {A} a.
Arguments HTTPException {A} status_code detail.
Arguments Uncaught {A} e.

Record UploadFile : Type := mkUploadFile {
  filename : string;
  suffix_lower : string;
  content : file
}.

(** The keys of the response; [saved_name] is its ["filename"]. *)
Record Response : Type := mkResponse {
  status : string;
  uploaded_file_path : string;
  file_type : string;
  saved_name : string;
  file_size_bytes : Z;
  total_flows : Z;
  summary : list (cell * nat);
  attack_types : list (cell * nat);
  download_csv : string;
  data_preview : pyval;
  all_flows : pyval
}.

Definition UPLOAD_DIR : string := "live/uploads".
Definition OUTPUT_DIR : string := "live".

(** [df.head(n)]. *)
Definition df_head (n : nat) (df : DataFrame) : DataFrame :=
  mkDataFrame (df_columns df) (take n (df_rows df)).

Section Handler.

Variable run_pipeline :
  gmap string file -> string -> string -> bool ->
  gmap string file * result DataFrame.

(** [str(directory / name)], [Path(path).name] and [stat().st_size]. *)
Variable path_join : string -> string -> string.
Variable path_name : string -> string.
Variable st_size : file -> Z.

(** [str(e)] for an exception. *)
Variable exn_str : exn -> string.

(** [JSONResponse(content=response)]: the body the content is encoded to,
    or the exception the encoder raises on content it refuses. *)
Variable JSONResponse : Response -> result string.

(** [is_pcap] and [is_csv] of the handler. *)
Definition is_pcap (upload : UploadFile) : bool :=
  bool_decide (suffix_lower upload ∈ [".pcap"; ".pcapng"]).

Definition is_csv (upload : UploadFile) : bool :=
  bool_decide (suffix_lower upload = ".csv").

(** [save_path]: under the upload's own name, or with the clock reading in
    front when a file of that name exists. *)
Definition save_path (time_save : Z) (upload : UploadFile)
    (disk : gmap string file) : string :=
  if bool_decide (is_Some (disk !! path_join UPLOAD_DIR (filename upload)))
  then path_join UPLOAD_DIR (pretty time_save ++ "_" ++ filename upload)
  else path_join UPLOAD_DIR (filename upload).

(** The files once the upload is written. *)
Definition saved (time_save : Z) (upload : UploadFile)
    (disk : gmap string file) : gmap string file :=
  <[save_path time_save upload disk := content upload]> disk.

Definition out_csv (time_out : Z) : string :=
  path_join OUTPUT_DIR ("predictions_" ++ pretty time_out ++ ".csv").

Definition predict (time_save time_out : Z) (upload : UploadFile)
    (disk : gmap string file) : gmap string file * reply Response :=
  if negb (is_pcap upload || is_csv upload) then
    (disk, HTTPException 400
             "Invalid file type. Upload .pcap/.pcapng/.csv only.")
  else
    let file_size := st_size (content upload) in
    match run_pipeline (saved time_save upload disk)
            (save_path time_save upload disk) (out_csv time_out)
            (is_pcap upload) with
    | (disk2, Raise e) =>
      (disk2, HTTPException 500 ("Pipeline error: " ++ exn_str e))
    | (disk2, Ok df_out) =>
      match df_getitem df_out "Label" with
      | Raise e => (disk2, Uncaught e)
      | Ok labels =>
        let label_counts := value_counts labels in
        let attack_types :=
          match column_index "Attack_Type" (df_columns df_out),
                column_index "Label" (df_columns df_out) with
          | Some a, Some l =>
            value_counts
              (map (fun r => row_get r a)
                   (df_rows (df_where_eq df_out l (CStr "ATTACK"))))
          | _, _ => []
          end in
        let response :=
          mkResponse "success" (save_path time_save upload disk)
            (if is_pcap upload then "pcap" else "csv")
            (path_name (save_path time_save upload disk)) file_size
            (Z.of_nat (length (df_rows df_out)))
            label_counts attack_types (out_csv time_out)
            (to_records (df_head 10 df_out))
            (to_records df_out) in
        match JSONResponse response with
        | Ok body => (disk2, Responds response)
        | Raise e => (disk2, Uncaught e)
        end
      end
    end.

End Handler.

End Predict.

(** The items of a Python list. *)
Definition list_items (v : pyval) : list pyval :=
  match v with
  | VList items => items
  | _ => []
  end.

(** Joining by a slash, as pathlib does for a plain file name. *)
Definition slash_join (directory name : string) : string :=
  directory ++ "/" ++ name.

(** A request carrying a capture under the given name. *)
Definition pcap_upload (name : string) : Predict.UploadFile :=
  Predict.mkUploadFile name ".pcap" (FPcap [Packet [69%Z]]).

(** Two flows with every cell filled in. *)
Definition complete_table : DataFrame :=
  mkDataFrame ["Flow Duration"; "Label"]
    [ [CInt 12; CStr "BENIGN"]; [CInt 40; CStr "ATTACK"] ].

(** The message an exception carries, as a sample of [str(e)]. *)
Definition message_of (e : exn) : string :=
  match e with
  | KeyError key => key
  | ParserError msg | PipelineError msg | EmptyDataError msg
  | ValueError msg => msg
  end.

(** A sample encoder that refuses content whose flows hold a
    not-a-number, and one that refuses nothing. *)
Definition strict_encoder (content : Predict.Response) : result string :=
  if no_nan (Predict.all_flows content) then Ok "{}"
  else Raise (ValueError "Out of range float values are not JSON compliant").

Definition lenient_encoder (content : Predict.Response) : result string :=
  Ok "{}".

(** One flow with a missing byte rate. *)
Definition missing_rate_table : DataFrame :=
  mkDataFrame ["Flow Bytes/s"; "Label"]
    [ [CFloat S754_nan; CStr "BENIGN"] ].

(** ** Notions the further properties are stated with *)

(** The stored handle is that of the worker launched last, and there is none
    before the first launch. *)
Definition handle_tracks_launches (w : World) : Prop :=
  loop_thread w = match launched w with
                  | O => None
                  | S k => Some k
                  end.

Fixpoint count_stops (cs : list ctl) : nat :=
  match cs with
  | [] => 0
  | CStop :: rest => S (count_stops rest)
  | CStart :: rest => count_stops rest
  end.

(** The flag as the cycle reads it at its last check (line 35), after the
    control calls made during the capture and during the write. *)
Definition running_at_pipeline_check (e : cycle_env) (w : World) : bool :=
  running (interfere (ctl_sniff e ++ ctl_write e) w).

(** A result with the world or the answer changed by a function. *)
Definition result_map {A B : Type} (f : A -> B) (r : result A) : result B :=
  match r with
  | Ok a => Ok (f a)
  | Raise x => Raise x
  end.

Definition with_running (b : bool) (s : Snapshot) : Snapshot :=
  mkSnapshot b (snap_last_capture s) (flows s) (summary s) (attack_types s)
             (all_flows s).

(** A value that holds no not-a-number and no Python [bool]. *)
Fixpoint plain (v : pyval) : bool :=
  match v with
  | VNone | VInt _ | VStr _ => true
  | VBool _ => false
  | VFloat f => negb (is_nan f)
  | VList items => forallb plain items
  | VDict items => forallb (fun kv => match kv with (_, x) => plain x end) items
  end.

(** How one cell of the results file reads in [all_flows]. *)
Definition json_cell (c : cell) : pyval :=
  match c with
  | CNone => VNone
  | CBool b => VInt (if b then 1 else 0)
  | CInt z => VInt z
  | CFloat f => if is_nan f then VNone else VFloat f
  | CStr s => VStr s
  end.

(** The three labels of the summary. *)
Definition known_labels : list cell :=
  [CStr "BENIGN"; CStr "ANOMALY"; CStr "ATTACK"].



Section LoopControls.

Variable run_pipeline :
  gmap string file -> string -> string -> bool ->
  gmap string file * result DataFrame.


End LoopControls.

(* ================================================================== *)
(** * The worker: start, stop, cycle and loop *)

Lemma apply_ctl_frame w c :
  last_capture_file (apply_ctl w c) = last_capture_file w /\
  fs (apply_ctl w c) = fs w /\
  pipeline_calls (apply_ctl w c) = pipeline_calls w.
Proof.
  destruct c; simpl; [| done].
  unfold start_capture. by destruct (running w).
Qed.

(** Start and stop calls never touch the capture name, the files or the
    record of pipeline calls. *)
Lemma interfere_frame cs w :
  last_capture_file (interfere cs w) = last_capture_file w /\
  fs (interfere cs w) = fs w /\
  pipeline_calls (interfere cs w) = pipeline_calls w.
Proof.
  revert w. induction cs as [| c cs IH]; intros w; simpl; [done |].
  destruct (IH (apply_ctl w c)) as (-> & -> & ->).
  apply apply_ctl_frame.
Qed.

Lemma capture_name_not_empty t : String.eqb (capture_name t) "" = false.
Proof. reflexivity. Qed.

Lemma start_capture_sets_running w : running (fst (start_capture w)) = true.
Proof. unfold start_capture. by destruct (running w) eqn:E. Qed.

Lemma serial_starts_when_running n w :
  running w = true -> serial_starts n w = w.
Proof.
  induction n as [| n IH]; intros Hr; simpl; [done |].
  unfold start_capture. rewrite Hr. simpl. by apply IH.
Qed.

(** Taking the two steps of one caller back to back is [start_capture]. *)
Lemma start_steps_atomic w :
  let '(w1, pc1) := start_step w AtTest in
  start_step w1 pc1 =
  (fst (start_capture w), Returned (snd (start_capture w))).
Proof. unfold start_capture. simpl. by destruct (running w). Qed.

Lemma run_serial_schedule n : forall k w (pre : list start_pc),
  length pre = k ->
  fst (run_schedule (flat_map (fun i => [i; i]) (seq k n)) w
                    (pre ++ replicate n AtTest))
  = serial_starts n w.
Proof.
  induction n as [| n IH]; intros k w pre Hk; [done |]. subst k.
  cbn [seq flat_map app replicate run_schedule].
  rewrite (list_lookup_middle pre _ AtTest _ eq_refl).
  pose proof (start_steps_atomic w) as Hat.
  destruct (start_step w AtTest) as [w1 pc1] eqn:E1.
  assert (Hins : forall (x y : start_pc) (tl : list start_pc),
             <[List.length pre := y]> (pre ++ x :: tl)%list
             = (pre ++ y :: tl)%list).
  { intros x y tl. by rewrite insert_app_r_alt, Nat.sub_diag by lia. }
  rewrite Hins, (list_lookup_middle pre _ pc1 _ eq_refl), Hat, Hins.
  cbn [serial_starts].
  rewrite (cons_middle _ pre), app_assoc.
  apply IH. rewrite length_app. simpl. lia.
Qed.

Section WorkerFacts.

Variable run_pipeline :
  gmap string file -> string -> string -> bool ->
  gmap string file * result DataFrame.

Lemma capture_once_raise_past_check e d w x :
  snd (capture_once run_pipeline e d w) = Raise x ->
  past_capture_check e d w = true.
Proof.
  unfold capture_once, past_capture_check.
  destruct (running w); simpl; [| discriminate].
  destruct (length (sniff e d) =? 0)%nat; simpl; [discriminate |].
  destruct (running (interfere (ctl_sniff e) w)); simpl; [done | discriminate].
Qed.

Lemma capture_once_last_capture_file e d w :
  last_capture_file (fst (capture_once run_pipeline e d w)) =
  if past_capture_check e d w then Some (capture_name (now e))
  else last_capture_file w.
Proof.
  unfold capture_once, past_capture_check.
  destruct (running w); simpl; [| done].
  destruct (length (sniff e d) =? 0)%nat; simpl.
  { apply interfere_frame. }
  destruct (running (interfere (ctl_sniff e) w)) eqn:E1; simpl.
  2: { apply interfere_frame. }
  match goal with |- context [running ?w3] =>
    match w3 with interfere (ctl_write e) _ => destruct (running w3) eqn:E3 end
  end; simpl.
  - match goal with |- context [run_pipeline ?a ?b ?c ?d] =>
      destruct (run_pipeline a b c d) as [disk r]
    end.
    destruct r; simpl;
      (etransitivity; [apply interfere_frame |]); simpl;
      (etransitivity; [apply interfere_frame |]); done.
  - etransitivity; [apply interfere_frame |]. done.
Qed.

(** C2, as amended: the capture name is committed as soon as the cycle is
    past its capture check, not only when the cycle succeeds.  A cycle in
    which the pipeline raises is past that check, and every cycle past it,
    whatever happens later (a stop seen before the pipeline, a pipeline
    failure or a success), leaves [get_last_capture] returning this cycle's
    capture name; a cycle that returns earlier leaves what
    [get_last_capture] returns unchanged. *)
Theorem capture_once_names_capture_before_pipeline e d w :
  (forall x, snd (capture_once run_pipeline e d w) = Raise x ->
             past_capture_check e d w = true) /\
  get_last_capture (fst (capture_once run_pipeline e d w)) =
  if past_capture_check e d w then Some (capture_name (now e))
  else get_last_capture w.
Proof.
  split; [apply capture_once_raise_past_check |].
  unfold get_last_capture. rewrite capture_once_last_capture_file.
  destruct (past_capture_check e d w); [| done].
  by rewrite capture_name_not_empty.
Qed.

(** C6, as amended: a cycle that captures nothing, or finds the running
    flag cleared when the capture returns, gives back [None], writes no file, does not
    call the pipeline, and leaves [last_capture_file] and every file (the
    results file among them) as they were. *)
Theorem capture_once_noop_on_empty_or_stopped e d w :
  sniff e d = [] \/ running (interfere (ctl_sniff e) w) = false ->
  snd (capture_once run_pipeline e d w) = Ok None /\
  fs (fst (capture_once run_pipeline e d w)) = fs w /\
  pipeline_calls (fst (capture_once run_pipeline e d w)) = pipeline_calls w /\
  last_capture_file (fst (capture_once run_pipeline e d w)) =
  last_capture_file w.
Proof.
  intros H. unfold capture_once.
  destruct (running w); simpl; [| done].
  assert (Hg : (length (sniff e d) =? 0)%nat
               || negb (running (interfere (ctl_sniff e) w)) = true).
  { destruct H as [-> | ->]; [done | by rewrite orb_true_r]. }
  rewrite Hg. simpl. split; [done |].
  destruct (interfere_frame (ctl_sniff e) w) as (-> & -> & ->). done.
Qed.

Lemma capture_once_quiet_flags e d w :
  quiet e ->
  running (fst (capture_once run_pipeline e d w)) = running w /\
  loop_thread (fst (capture_once run_pipeline e d w)) = loop_thread w.
Proof.
  destruct e as [sn cs t cw cp csl]. intros (Hs & Hw & Hp & _).
  simpl in Hs, Hw, Hp. subst cs cw cp.
  unfold capture_once. simpl.
  destruct (running w) eqn:Er; simpl; [| done].
  destruct (length (sn d) =? 0)%nat; simpl; [done |].
  rewrite ?Er.
  destruct (run_pipeline _ _ _ _) as [disk r]. destruct r; done.
Qed.

Lemma loop_quiet_flags envs : forall w,
  Forall quiet envs ->
  running (fst (fst (loop run_pipeline envs w))) = running w /\
  loop_thread (fst (fst (loop run_pipeline envs w))) = loop_thread w.
Proof.
  induction envs as [| e rest IH]; intros w Hq; simpl.
  - by destruct (negb (running w)).
  - destruct (running w) eqn:Er; simpl; [| by rewrite Er].
    inversion Hq as [| ? ? He Hrest]; subst.
    destruct (capture_once_quiet_flags e 10 w He) as [Hr Ht].
    destruct (capture_once run_pipeline e 10 w) as [w' r]. simpl in Hr, Ht.
    destruct r as [df | x]; simpl; [| by rewrite Hr, Ht].
    rewrite Hr, Er. simpl.
    destruct He as (_ & _ & _ & Hsl). rewrite Hsl. simpl.
    destruct (IH w' Hrest) as [Hr' Ht'].
    destruct (loop run_pipeline rest w') as [[w'' o] n]. simpl in *.
    by rewrite Hr', Ht', Hr, Ht.
Qed.

(** C1: when the pipeline raises inside a cycle, nothing catches the
    exception: it leaves [capture_once], the loop ends there with that
    exception after this one cycle, and the environments of later cycles
    are never reached. *)
Theorem background_loop_ends_on_pipeline_failure e rest w x :
  snd (capture_once run_pipeline e 10 (set_running true w)) = Raise x ->
  background_loop run_pipeline (e :: rest) w =
  (fst (capture_once run_pipeline e 10 (set_running true w)), Crashed x, 1).
Proof.
  intros H. unfold background_loop. simpl loop.
  destruct (capture_once run_pipeline e 10 (set_running true w)) as [w' r].
  simpl in *. by subst r.
Qed.

End WorkerFacts.

(** C1, at a concrete input: the worker is started, the first cycle captures
    a packet and the pipeline raises.  The loop ends there with the
    exception after one cycle, although a second cycle was available, and
    [running] is left set. *)
Lemma background_loop_ends_on_pipeline_failure_witness :
  snd (capture_once failing_pipeline (quiet_cycle "2024-01-01_00-00-00") 10
         (set_running true started_world))
  = Raise (PipelineError "model not loaded") /\
  background_loop failing_pipeline
    [quiet_cycle "2024-01-01_00-00-00"; quiet_cycle "2024-01-01_00-00-11"]
    started_world
  = (fst (capture_once failing_pipeline (quiet_cycle "2024-01-01_00-00-00") 10
            (set_running true started_world)),
     Crashed (PipelineError "model not loaded"), 1).
Proof.
  split; [reflexivity |].
  apply (background_loop_ends_on_pipeline_failure failing_pipeline).
  reflexivity.
Defined.

(** After that crash the flag still reads as running, so a later
    [start_capture] launches nothing. *)
Lemma crashed_worker_is_not_restarted :
  let w := fst (fst (background_loop failing_pipeline
                       [quiet_cycle "2024-01-01_00-00-00"] started_world)) in
  is_running w = true /\ snd (start_capture w) = None /\
  launched (fst (start_capture w)) = 1.
Proof. vm_compute. done. Qed.

(** C2, as stated, fails: with a capture name already recorded, a cycle
    whose pipeline raises leaves [get_last_capture] returning the new
    capture's name. *)
Lemma pipeline_failure_changes_last_capture :
  let w := set_last_capture_file "capture_2024-01-01_00-00-00.pcap"
             started_world in
  let after := capture_once failing_pipeline
                 (quiet_cycle "2024-01-01_00-00-11") 10 w in
  snd after = Raise (PipelineError "model not loaded") /\
  get_last_capture w = Some "capture_2024-01-01_00-00-00.pcap" /\
  get_last_capture (fst after) = Some "capture_2024-01-01_00-00-11.pcap" /\
  get_last_capture (fst after) <> get_last_capture w.
Proof. vm_compute. repeat split; congruence. Qed.

Lemma capture_once_names_capture_before_pipeline_witness :
  (forall x,
     snd (capture_once failing_pipeline (quiet_cycle "2024-01-01_00-00-11") 10
            started_world) = Raise x ->
     past_capture_check (quiet_cycle "2024-01-01_00-00-11") 10 started_world
     = true) /\
  get_last_capture
    (fst (capture_once failing_pipeline (quiet_cycle "2024-01-01_00-00-11") 10
            started_world))
  = if past_capture_check (quiet_cycle "2024-01-01_00-00-11") 10 started_world
    then Some (capture_name (now (quiet_cycle "2024-01-01_00-00-11")))
    else get_last_capture started_world.
Proof.
  apply (capture_once_names_capture_before_pipeline failing_pipeline).
Defined.


Lemma quiet_cycle_is_quiet t : quiet (quiet_cycle t).
Proof. repeat split. Qed.

(** C6, as stated, fails: a stop fired during the capture, but a start
    followed it before the capture returned; the cycle finds the flag set
    and is no no-op: it records the name, writes the capture and runs the
    pipeline, which writes the results. *)
Lemma stop_then_start_during_capture_is_no_noop :
  let after := capture_once (constant_pipeline scenario_table)
                 (restart_cycle "2024-01-01_00-00-00") 10 started_world in
  CStop ∈ ctl_sniff (restart_cycle "2024-01-01_00-00-00") /\
  snd after = Ok (Some scenario_table) /\
  last_capture_file (fst after) = Some "capture_2024-01-01_00-00-00.pcap" /\
  last_capture_file started_world = None /\
  pipeline_calls (fst after) = ["live/capture_2024-01-01_00-00-00.pcap"] /\
  pipeline_calls started_world = [] /\
  fs (fst after) !! results_path = Some (FCsv scenario_table) /\
  fs started_world !! results_path = None.
Proof.
  cbn zeta. split; [apply list_elem_of_here |]. vm_compute. done.
Qed.

(** C7, as stated, fails: a results file exists, but its table has no
    label column, or it is empty, and the status read raises instead of
    returning a snapshot. *)
Lemma live_status_raises_on_results_without_labels :
  fs (world_with_results unlabelled_table) !! results_path
  = Some (FCsv unlabelled_table) /\
  live_status (fun _ => "nan") (world_with_results unlabelled_table)
  = Raise (KeyError "Label") /\
  live_status (fun _ => "nan") (world_with_results (mkDataFrame [] []))
  = Raise (EmptyDataError "No columns to parse from file").
Proof. repeat split. Qed.

(** C5, as stated, fails: two callers that both test [running] before
    either sets it both launch a worker. *)
Lemma interleaved_starts_launch_two_workers :
  running initial_world = false /\
  launched (fst (run_schedule [0; 1; 0; 1] initial_world [AtTest; AtTest]))
  = 2 /\
  snd (run_schedule [0; 1; 0; 1] initial_world [AtTest; AtTest])
  = [Returned (Some true); Returned (Some true)].
Proof. repeat split. Qed.

(** C5, as amended: when the calls are serialized, each finishing before
    the next begins, any number of them from a stopped state launch exactly
    one worker; this is the outcome of the schedule in which every caller
    takes its two steps back to back. *)
Theorem serial_starts_launch_one_worker n w :
  running w = false ->
  launched (serial_starts (S n) w) = S (launched w) /\
  loop_thread (serial_starts (S n) w) = Some (launched w) /\
  running (serial_starts (S n) w) = true /\
  fst (run_schedule (serial_schedule (S n)) w (replicate (S n) AtTest))
  = serial_starts (S n) w.
Proof.
  intros Hr.
  assert (Hs : serial_starts (S n) w = spawn_worker (set_running true w)).
  { simpl. unfold start_capture. rewrite Hr. simpl.
    by apply serial_starts_when_running. }
  rewrite Hs. repeat split.
  rewrite <- Hs. unfold serial_schedule.
  apply (run_serial_schedule (S n) 0 w []). done.
Qed.

Lemma serial_starts_launch_one_worker_witness :
  running initial_world = false /\
  launched (serial_starts 3 initial_world) = 1 /\
  loop_thread (serial_starts 3 initial_world) = Some 0 /\
  running (serial_starts 3 initial_world) = true /\
  fst (run_schedule (serial_schedule 3) initial_world (replicate 3 AtTest))
  = serial_starts 3 initial_world.
Proof.
  split; [reflexivity |].
  apply (serial_starts_launch_one_worker 2 initial_world). reflexivity.
Defined.

Lemma capture_once_noop_on_empty_or_stopped_witness :
  (sniff (stopped_cycle "2024-01-01_00-00-00") 10 = [] \/
   running (interfere (ctl_sniff (stopped_cycle "2024-01-01_00-00-00"))
              started_world) = false) /\
  snd (capture_once (constant_pipeline scenario_table)
         (stopped_cycle "2024-01-01_00-00-00") 10 started_world) = Ok None /\
  fs (fst (capture_once (constant_pipeline scenario_table)
             (stopped_cycle "2024-01-01_00-00-00") 10 started_world))
  = fs started_world.
Proof.
  assert (H : sniff (stopped_cycle "2024-01-01_00-00-00") 10 = [] \/
              running (interfere (ctl_sniff (stopped_cycle
                                               "2024-01-01_00-00-00"))
                         started_world) = false).
  { right. reflexivity. }
  split; [exact H |].
  destruct (capture_once_noop_on_empty_or_stopped
              (constant_pipeline scenario_table) _ 10 started_world H)
    as (H1 & H2 & _).
  split; [exact H1 | exact H2].
Defined.

(** C9: with [running] set, [start_capture] returns at once: the state is
    what it was (no worker launched, [running] and [loop_thread]
    untouched) and the call returns [None] rather than raising. *)
Theorem start_capture_idempotent_when_running w :
  running w = true ->
  start_capture w = (w, None).
Proof. intros H. unfold start_capture. by rewrite H. Qed.

Lemma start_capture_idempotent_when_running_witness :
  running started_world = true /\
  start_capture started_world = (started_world, None).
Proof.
  split; [reflexivity |].
  apply (start_capture_idempotent_when_running started_world). reflexivity.
Defined.

(** C10: [start_capture] returns [True] exactly when it launches a worker
    and [None] when one is already running; [stop_capture] returns [True]
    in every state, the fresh module where nothing was ever started
    included. *)
Theorem start_stop_return_values w :
  snd (start_capture w) = (if running w then None else Some true) /\
  launched (fst (start_capture w))
  = (if running w then launched w else S (launched w)) /\
  snd (stop_capture w) = Some true /\
  snd (stop_capture initial_world) = Some true /\
  loop_thread initial_world = None.
Proof. unfold start_capture. by destruct (running w). Qed.

(* ================================================================== *)
(** * The status endpoint *)

(** Induction over Python values, with the hypothesis available for every
    element of a list and every value of a dictionary. *)
Lemma pyval_nested_ind (P : pyval -> Prop) :
  P VNone ->
  (forall b, P (VBool b)) ->
  (forall z, P (VInt z)) ->
  (forall f, P (VFloat f)) ->
  (forall s, P (VStr s)) ->
  (forall items, Forall P items -> P (VList items)) ->
  (forall items, Forall (fun kv => P (snd kv)) items -> P (VDict items)) ->
  forall v, P v.
Proof.
  intros HN HB HI HF HS HL HD.
  fix IH 1. intros v. destruct v as [| b | z | f | s | items | items].
  - exact HN.
  - apply HB.
  - apply HI.
  - apply HF.
  - apply HS.
  - apply HL. induction items as [| x xs IHxs]; constructor.
    + apply IH.
    + exact IHxs.
  - apply HD. induction items as [| [k x] xs IHxs]; constructor.
    + apply IH.
    + exact IHxs.
Qed.

(** Whatever goes into [replace_nan_with_none], no not-a-number comes out,
    at any depth. *)
Lemma replace_nan_with_none_no_nan v :
  no_nan (replace_nan_with_none v) = true.
Proof.
  unfold no_nan.
  induction v as [| b | z | f | s | items IH | items IH]
    using pyval_nested_ind; simpl; try done.
  - by destruct f.
  - induction IH as [| x xs Hx _ IHxs]; simpl; [done |].
    by rewrite Hx, IHxs.
  - induction IH as [| [k x] xs Hx _ IHxs]; simpl; [done |].
    simpl in Hx. by rewrite Hx, IHxs.
Qed.

(** Infinities are not touched. *)
Lemma replace_nan_with_none_keeps_infinity sign :
  replace_nan_with_none (VFloat (S754_infinity sign))
  = VFloat (S754_infinity sign).
Proof. reflexivity. Qed.

Lemma counts_value_all_floats p (m : gmap string Z) :
  all_floats p (counts_value m) = true.
Proof.
  unfold counts_value. simpl.
  induction (map_to_list m) as [| [k z] rest IH]; simpl; [done |].
  exact IH.
Qed.

Lemma response_no_nan s :
  no_nan (all_flows s) = true -> no_nan (response s) = true.
Proof.
  destruct s as [r lc n sm at_ fl]. unfold no_nan, response.
  cbn [all_floats forallb snap_running snap_last_capture flows summary
       attack_types all_flows].
  intros ->. rewrite !counts_value_all_floats. by destruct lc.
Qed.

Lemma column_index_replace name table :
  column_index name (df_columns (df_replace_nan table))
  = column_index name (df_columns table).
Proof. reflexivity. Qed.

(** Replacing missing values by [None] keeps a cell missing when it was,
    and keeps it as it is otherwise. *)
Lemma row_get_replace_cases r i :
  (isna (row_get r i) = true /\
   isna (row_get (map nan_to_none r) i) = true) \/
  (isna (row_get r i) = false /\
   row_get (map nan_to_none r) i = row_get r i).
Proof.
  unfold row_get. rewrite list_lookup_fmap.
  destruct (r !! i) as [c |]; simpl; [| by left].
  unfold nan_to_none. destruct (isna c) eqn:E; [by left | by right].
Qed.

Lemma row_get_replace_eq r i c :
  isna c = false ->
  row_get (map nan_to_none r) i = c <-> row_get r i = c.
Proof.
  intros Hc.
  destruct (row_get_replace_cases r i) as [[H1 H2] | [H1 H2]].
  - split; intros <-; congruence.
  - by rewrite H2.
Qed.

Lemma count_occ_present xs k :
  isna k = false ->
  count_occ cell_eq_dec (present xs) k = count_occ cell_eq_dec xs k.
Proof.
  intros Hk. unfold present.
  induction xs as [| x xs IH]; [done |].
  rewrite filter_cons. simpl.
  destruct (cell_eq_dec x k) as [-> | Hne].
  - rewrite decide_True by done. simpl.
    destruct (cell_eq_dec k k); [by rewrite IH | done].
  - case_decide; simpl; [| done].
    destruct (cell_eq_dec x k); [done | exact IH].
Qed.

Lemma dict_get_map_keys (f : cell -> nat) keys k :
  dict_get (map (fun x => (x, f x)) keys) k
  = if decide (k ∈ keys) then f k else 0.
Proof.
  induction keys as [| x keys IH]; cbn [map dict_get].
  - rewrite decide_False; [done | apply not_elem_of_nil].
  - destruct (decide (x = k)) as [-> | Hne].
    + rewrite decide_True; [done | apply elem_of_cons; by left].
    + rewrite IH. destruct (decide (k ∈ keys)) as [Hin | Hnin].
      * rewrite decide_True; [done | apply elem_of_cons; by right].
      * rewrite decide_False; [done |].
        rewrite elem_of_cons. intros [-> | ?]; done.
Qed.

(** Looking a value up in [value_counts] gives how often it occurs. *)
Lemma dict_get_value_counts xs k :
  isna k = false ->
  dict_get (value_counts xs) k = count_occ cell_eq_dec xs k.
Proof.
  intros Hk. unfold value_counts. fold (present xs).
  rewrite (dict_get_map_keys (count_occ cell_eq_dec (present xs))).
  rewrite <- (count_occ_present xs k Hk).
  case_decide as Hin; [done |].
  symmetry. apply count_occ_not_In.
  rewrite <- list_elem_of_In. by rewrite elem_of_remove_dups in Hin.
Qed.

Lemma count_occ_column (g : list cell -> cell) rows k :
  count_occ cell_eq_dec (map g rows) k
  = length (filter (fun r => g r = k) rows).
Proof.
  induction rows as [| r rows IH]; [done |].
  rewrite filter_cons. simpl.
  destruct (cell_eq_dec (g r) k) as [E | E].
  - rewrite decide_True by done. simpl. by rewrite IH.
  - by rewrite decide_False.
Qed.

Lemma where_eq_replace rows l c :
  isna c = false ->
  filter (fun r => row_get r l = c) (map (map nan_to_none) rows)
  = map (map nan_to_none) (filter (fun r => row_get r l = c) rows).
Proof.
  intros Hc. induction rows as [| r rows IH]; [done |].
  cbn [map]. rewrite !filter_cons.
  destruct (decide (row_get r l = c)) as [E | E].
  - rewrite decide_True by (by apply row_get_replace_eq).
    cbn [map]. by rewrite IH.
  - rewrite decide_False; [exact IH |].
    intros E'. apply E. by apply (row_get_replace_eq r l c Hc).
Qed.

Lemma present_replace rows a :
  present (map (fun r => row_get (map nan_to_none r) a) rows)
  = present (map (fun r => row_get r a) rows).
Proof.
  unfold present. induction rows as [| r rows IH]; [done |].
  cbn [map]. rewrite !filter_cons.
  destruct (row_get_replace_cases r a) as [[H1 H2] | [H1 H2]].
  - rewrite !decide_False by congruence. exact IH.
  - rewrite H2, IH. done.
Qed.

Lemma value_counts_present xs ys :
  present xs = present ys -> value_counts xs = value_counts ys.
Proof. unfold value_counts. fold (present xs) (present ys). by intros ->. Qed.

(** The pairs of [value_counts]: the values that occur and are not
    missing, each with its number of occurrences. *)
Lemma elem_of_value_counts xs k v :
  (k, v) ∈ value_counts xs <->
  k ∈ xs /\ isna k = false /\ v = count_occ cell_eq_dec xs k.
Proof.
  unfold value_counts. fold (present xs).
  rewrite list_elem_of_fmap. split.
  - intros (x & [= -> ->] & Hin).
    rewrite elem_of_remove_dups in Hin. unfold present in Hin.
    apply list_elem_of_filter in Hin as [Hna Hin].
    split; [done |]. split; [done |]. by apply count_occ_present.
  - intros (Hin & Hna & ->). exists k. split.
    + by rewrite count_occ_present.
    + rewrite elem_of_remove_dups. unfold present.
      by apply list_elem_of_filter.
Qed.

(** A table with a column it can be asked for is read as it is. *)
Lemma read_csv_with_column path table name i :
  column_index name (df_columns table) = Some i ->
  read_csv path (FCsv table) = Ok table.
Proof. unfold read_csv. by destruct (df_columns table). Qed.

Lemma read_csv_Ok path f table :
  read_csv path f = Ok table -> f = FCsv table.
Proof.
  destruct f as [pk | t | raw]; simpl; try done.
  destruct (df_columns t); [done | by intros [= ->]].
Qed.

Section StatusFacts.

Variable float_repr : spec_float -> string.

Local Abbreviation attack_step :=
  (fun (m : gmap string Z) (kv : cell * nat) =>
     if isna (fst kv) then m
     else <[py_str float_repr (fst kv) := Z.of_nat (snd kv)]> m).

Lemma attack_fold_sound l : forall (m : gmap string Z) s n,
  fold_left attack_step l m !! s = Some n ->
  m !! s = Some n \/
  exists k v, (k, v) ∈ l /\ isna k = false /\
              py_str float_repr k = s /\ n = Z.of_nat v.
Proof.
  induction l as [| [k v] l IH]; intros m s n H; [by left |].
  cbn [fold_left] in H. apply IH in H as [H | (k' & v' & Hin & Hrest)].
  - cbn [fst snd] in H. destruct (isna k) eqn:Ek; [by left |].
    destruct (decide (py_str float_repr k = s)) as [<- | Hne].
    + rewrite lookup_insert_eq in H. injection H as <-.
      right. exists k, v. split; [apply elem_of_cons; by left | done].
    + rewrite lookup_insert_ne in H by done. by left.
  - right. exists k', v'. split; [apply elem_of_cons; by right | done].
Qed.

Lemma attack_fold_keeps l : forall (m : gmap string Z) s,
  is_Some (m !! s) -> is_Some (fold_left attack_step l m !! s).
Proof.
  induction l as [| [k v] l IH]; intros m s H; [done |].
  cbn [fold_left fst snd]. apply IH.
  destruct (isna k); [done |].
  destruct (decide (py_str float_repr k = s)) as [<- | Hne].
  - rewrite lookup_insert_eq. by eexists.
  - by rewrite lookup_insert_ne.
Qed.

Lemma attack_fold_complete l : forall (m : gmap string Z) k v,
  (k, v) ∈ l -> isna k = false ->
  is_Some (fold_left attack_step l m !! py_str float_repr k).
Proof.
  induction l as [| [k0 v0] l IH]; intros m k v Hin Hna.
  - by apply elem_of_nil in Hin.
  - apply elem_of_cons in Hin as [[= <- <-] | Hin].
    + cbn [fold_left fst snd]. rewrite Hna. apply attack_fold_keeps.
      rewrite lookup_insert_eq. by eexists.
    + cbn [fold_left]. by apply (IH _ k v).
Qed.

(** What [live_status] computes from a table that has a label column. *)
Lemma live_status_of_table w table l :
  fs w !! results_path = Some (FCsv table) ->
  column_index "Label" (df_columns table) = Some l ->
  live_status float_repr w =
  Ok (mkSnapshot (running w) (get_last_capture w)
        (Z.of_nat (length (df_rows table)))
        {[ "BENIGN" :=
             Z.of_nat (length (df_rows (df_where_eq table l (CStr "BENIGN"))));
           "ANOMALY" :=
             Z.of_nat (length (df_rows (df_where_eq table l (CStr "ANOMALY"))));
           "ATTACK" :=
             Z.of_nat (length (df_rows (df_where_eq table l (CStr "ATTACK"))))
        ]}
        (attack_dict float_repr (value_counts (attack_type_cells table l)))
        (replace_nan_with_none
           (to_records (df_replace_nan (df_replace_nan table))))).
Proof.
  intros Hfs Hl. unfold live_status.
  rewrite Hfs, (read_csv_with_column _ _ _ _ Hl).
  unfold df_getitem. rewrite !column_index_replace, Hl.
  assert (Hcount : forall L,
    dict_get (value_counts (map (fun r => row_get r l)
                                (df_rows (df_replace_nan table)))) (CStr L)
    = length (df_rows (df_where_eq table l (CStr L)))).
  { intros L. rewrite dict_get_value_counts by done.
    rewrite (count_occ_column (fun r => row_get r l)).
    cbn [df_replace_nan df_rows df_where_eq].
    rewrite where_eq_replace by done. by rewrite length_map. }
  rewrite !Hcount.
  f_equal. f_equal.
  - cbn [df_replace_nan df_rows]. by rewrite length_map.
  - unfold attack_type_cells.
    destruct (column_index "Attack_Type" (df_columns table)) as [a |];
      [| done].
    cbn [df_replace_nan df_rows df_where_eq].
    rewrite where_eq_replace by done.
    set (rows := filter (fun r => row_get r l = CStr "ATTACK") (df_rows table)).
    transitivity (attack_dict float_repr
                    (value_counts (map (fun r => row_get r a)
                                       (map (map nan_to_none) rows)))).
    { by destruct rows. }
    f_equal. apply value_counts_present.
    rewrite map_map. apply present_replace.
Qed.

(** C7, as amended: with a results file that parses to a table with a
    label column, the snapshot counts the rows; its summary has exactly the keys BENIGN, ANOMALY and
    ATTACK, each holding the number of rows with that label (zero when
    there is none), so rows with other labels are read without failure and
    counted nowhere in it; and [attack_types] comes from the attack-type
    cells of the ATTACK rows only: every entry is the printed form of such a
    cell that is not missing, with the number of times it occurs, every such
    cell has an entry, and missing cells have none. *)
Theorem live_status_with_results w table l :
  fs w !! results_path = Some (FCsv table) ->
  column_index "Label" (df_columns table) = Some l ->
  exists snap,
    live_status float_repr w = Ok snap /\
    flows snap = Z.of_nat (length (df_rows table)) /\
    dom (summary snap) = ({[ "BENIGN"; "ANOMALY"; "ATTACK" ]} : gset string) /\
    (forall L, L ∈ ["BENIGN"; "ANOMALY"; "ATTACK"] ->
       summary snap !! L =
       Some (Z.of_nat (length (df_rows (df_where_eq table l (CStr L)))))) /\
    (forall s n, attack_types snap !! s = Some n ->
       exists k, k ∈ attack_type_cells table l /\ isna k = false /\
                 py_str float_repr k = s /\
                 n = Z.of_nat (count_occ cell_eq_dec
                                 (attack_type_cells table l) k)) /\
    (forall k, k ∈ attack_type_cells table l -> isna k = false ->
       is_Some (attack_types snap !! py_str float_repr k)) /\
    (forall t,
       (forall k, k ∈ attack_type_cells table l -> isna k = false ->
                  exists t', k = CStr t') ->
       CStr t ∈ attack_type_cells table l ->
       attack_types snap !! t =
       Some (Z.of_nat (count_occ cell_eq_dec (attack_type_cells table l)
                         (CStr t)))).
Proof.
  intros Hfs Hl. eexists. split; [by apply live_status_of_table |].
  cbn [flows summary attack_types].
  set (cells := attack_type_cells table l).
  assert (Hsound : forall s n,
    attack_dict float_repr (value_counts cells) !! s = Some n ->
    exists k, k ∈ cells /\ isna k = false /\ py_str float_repr k = s /\
              n = Z.of_nat (count_occ cell_eq_dec cells k)).
  { intros s n H. unfold attack_dict in H.
    apply attack_fold_sound in H as [H | (k & v & Hin & Hna & Hs & ->)].
    - by rewrite lookup_empty in H.
    - apply elem_of_value_counts in Hin as (Hin & _ & ->). by exists k. }
  assert (Hcomplete : forall k, k ∈ cells -> isna k = false ->
    is_Some (attack_dict float_repr (value_counts cells)
             !! py_str float_repr k)).
  { intros k Hin Hna. unfold attack_dict.
    apply (attack_fold_complete _ _ k (count_occ cell_eq_dec cells k));
      [| done].
    by apply elem_of_value_counts. }
  split; [done |]. split.
  { rewrite !dom_insert_L, dom_singleton_L. set_solver. }
  split.
  { intros L HL. rewrite !elem_of_cons in HL.
    destruct HL as [-> | [-> | [-> | HL]]]; [done | done | done |].
    by apply elem_of_nil in HL. }
  split; [exact Hsound |]. split; [exact Hcomplete |].
  intros t Hstr Hin.
  destruct (Hcomplete (CStr t) Hin eq_refl) as [n Hn].
  cbn [py_str] in Hn. rewrite Hn.
  destruct (Hsound t n Hn) as (k & Hk & Hna & Hs & ->).
  destruct (Hstr k Hk Hna) as [t' ->]. cbn [py_str] in Hs. by subst t'.
Qed.

(** C8: with no results file, [live_status] returns, without raising, a
    snapshot that carries the running flag of the worker state and its
    last capture name (the recorded name when there is one, [None] when
    none is recorded or the recorded name is empty), with zero flows, a
    zero under each of the three labels, no attack types and no rows. *)
Theorem live_status_without_results w :
  fs w !! results_path = None ->
  exists snap,
    live_status float_repr w = Ok snap /\
    snap_running snap = running w /\
    (forall n, last_capture_file w = Some n -> n <> "" ->
       snap_last_capture snap = Some n) /\
    (last_capture_file w = None \/ last_capture_file w = Some "" ->
     snap_last_capture snap = None) /\
    flows snap = 0%Z /\
    summary snap
    = {[ "BENIGN" := 0%Z; "ANOMALY" := 0%Z; "ATTACK" := 0%Z ]} /\
    attack_types snap = ∅ /\
    all_flows snap = VList [].
Proof.
  intros H. unfold live_status. rewrite H. eexists. split; [done |].
  cbn [snap_running snap_last_capture flows summary attack_types all_flows].
  split; [done |]. unfold get_last_capture. split.
  - intros n -> Hn. apply String.eqb_neq in Hn. by rewrite Hn.
  - split; [| done]. by intros [-> | ->].
Qed.

(** The part of the sanitization that holds: whenever [live_status]
    returns, no not-a-number is anywhere in the response. *)
Lemma live_status_no_nan w snap :
  live_status float_repr w = Ok snap ->
  no_nan (response snap) = true.
Proof.
  intros H. apply response_no_nan. revert H. unfold live_status.
  destruct (fs w !! results_path) as [f |]; [| by intros [= <-]].
  destruct (read_csv results_path f) as [table | x]; [| done].
  destruct (df_getitem _ _) as [labels | x]; [| done].
  intros [= <-].
  exact (replace_nan_with_none_no_nan
           (to_records (df_replace_nan (df_replace_nan table)))).
Qed.

(** C3: a results file with one flow whose byte rate is infinite.  The
    status read returns that infinity in [all_flows], so the response holds
    a float that is not finite. *)
Theorem live_status_returns_infinity :
  match live_status float_repr (world_with_results infinite_rate_table) with
  | Ok snap =>
    all_flows snap =
    VList [VDict [("Flow Bytes/s", VFloat (S754_infinity false));
                  ("Label", VStr "BENIGN")]] /\
    json_finite (all_flows snap) = false /\
    json_finite (response snap) = false
  | Raise _ => False
  end.
Proof. vm_compute. done. Qed.

End StatusFacts.

Lemma live_status_with_results_witness :
  fs (world_with_results scenario_table) !! results_path
  = Some (FCsv scenario_table) /\
  column_index "Label" (df_columns scenario_table) = Some 1 /\
  exists snap,
    live_status (fun _ => "nan") (world_with_results scenario_table)
    = Ok snap /\
    flows snap = 3%Z /\
    summary snap !! "BENIGN" = Some 2%Z /\
    summary snap !! "ANOMALY" = Some 0%Z /\
    summary snap !! "ATTACK" = Some 1%Z /\
    attack_types snap !! "SYN-flood" = Some 1%Z.
Proof.
  assert (H1 : fs (world_with_results scenario_table) !! results_path
               = Some (FCsv scenario_table)) by reflexivity.
  assert (H2 : column_index "Label" (df_columns scenario_table) = Some 1)
    by reflexivity.
  split; [exact H1 |]. split; [exact H2 |].
  destruct (live_status_with_results (fun _ => "nan") _ _ _ H1 H2)
    as (snap & Hs & Hf & _ & Hsum & _ & _ & Hatk).
  exists snap. split; [exact Hs |]. split; [exact Hf |].
  split; [apply (Hsum "BENIGN"); set_solver |].
  split; [apply (Hsum "ANOMALY"); set_solver |].
  split; [apply (Hsum "ATTACK"); set_solver |].
  apply (Hatk "SYN-flood").
  - intros k Hk Hna. vm_compute in Hk.
    apply list_elem_of_singleton in Hk. subst k. by eexists.
  - vm_compute. apply list_elem_of_here.
Defined.

Lemma live_status_without_results_witness :
  let w := fst (capture_once failing_pipeline
                  (stop_during_write_cycle "2024-01-01_00-00-00") 10
                  started_world) in
  fs w !! results_path = None /\
  last_capture_file w = Some "capture_2024-01-01_00-00-00.pcap" /\
  exists snap,
    live_status (fun _ => "nan") w = Ok snap /\
    snap_running snap = false /\
    snap_last_capture snap = Some "capture_2024-01-01_00-00-00.pcap" /\
    flows snap = 0%Z /\
    all_flows snap = VList [].
Proof.
  cbn zeta.
  assert (H : fs (fst (capture_once failing_pipeline
                         (stop_during_write_cycle "2024-01-01_00-00-00") 10
                         started_world)) !! results_path = None)
    by reflexivity.
  split; [exact H |]. split; [reflexivity |].
  destruct (live_status_without_results (fun _ => "nan") _ H)
    as (snap & Hs & Hr & Hn & _ & Hf & _ & _ & Ha).
  exists snap. split; [exact Hs |]. split; [exact Hr |].
  split; [apply Hn; [reflexivity | discriminate] |].
  split; [exact Hf | exact Ha].
Defined.

(* ================================================================== *)
(** * Further properties of the worker *)

Lemma apply_ctl_set_last_capture_file n w c :
  apply_ctl (set_last_capture_file n w) c
  = set_last_capture_file n (apply_ctl w c).
Proof.
  destruct c; simpl; [| done].
  unfold start_capture. simpl. by destruct (running w).
Qed.

Lemma apply_ctl_wrpcap p k w c :
  apply_ctl (wrpcap p k w) c = wrpcap p k (apply_ctl w c).
Proof.
  destruct c; simpl; [| done].
  unfold start_capture. simpl. by destruct (running w).
Qed.

(** Control calls and the cycle's own writes act on different fields, so
    they can be taken in either order. *)
Lemma interfere_set_last_capture_file cs : forall n w,
  interfere cs (set_last_capture_file n w)
  = set_last_capture_file n (interfere cs w).
Proof.
  induction cs as [| c cs IH]; intros n w; simpl; [done |].
  by rewrite apply_ctl_set_last_capture_file, IH.
Qed.

Lemma interfere_wrpcap cs : forall p k w,
  interfere cs (wrpcap p k w) = wrpcap p k (interfere cs w).
Proof.
  induction cs as [| c cs IH]; intros p k w; simpl; [done |].
  by rewrite apply_ctl_wrpcap, IH.
Qed.

Lemma interfere_app cs1 cs2 w :
  interfere (cs1 ++ cs2) w = interfere cs2 (interfere cs1 w).
Proof. unfold interfere. apply fold_left_app. Qed.

Lemma apply_ctl_handle w c :
  handle_tracks_launches w -> handle_tracks_launches (apply_ctl w c).
Proof.
  unfold handle_tracks_launches. destruct c; simpl; [| done].
  unfold start_capture. by destruct (running w).
Qed.

Lemma interfere_handle cs : forall w,
  handle_tracks_launches w -> handle_tracks_launches (interfere cs w).
Proof.
  induction cs as [| c cs IH]; intros w H; simpl; [done |].
  by apply IH, apply_ctl_handle.
Qed.

Lemma append_pcap_inj t1 : forall t2,
  (t1 ++ ".pcap" = t2 ++ ".pcap" -> t1 = t2)%string.
Proof.
  assert (Hlen : forall t : string,
             String.length (t ++ ".pcap") = String.length t + 5).
  { induction t as [| a t IH]; simpl; [done | by rewrite IH]. }
  induction t1 as [| a t1 IH]; intros [| b t2] H.
  - done.
  - apply (f_equal String.length) in H. rewrite !Hlen in H. simpl in H. lia.
  - apply (f_equal String.length) in H. rewrite !Hlen in H. simpl in H. lia.
  - simpl in H. injection H as -> H. f_equal. by apply IH.
Qed.

(** Captures taken at different clock readings go to different files, and
    none of them to the results file. *)
Lemma capture_path_inj t1 t2 : capture_path t1 = capture_path t2 -> t1 = t2.
Proof.
  unfold capture_path, capture_name. simpl. intros H.
  injection H as H. by apply append_pcap_inj.
Qed.

Lemma capture_path_not_results t : capture_path t <> results_path.
Proof. unfold capture_path, capture_name, results_path. simpl. discriminate. Qed.

Section WorkerCycle.

Variable run_pipeline :
  gmap string file -> string -> string -> bool ->
  gmap string file * result DataFrame.

(** The world in which the cycle makes its last check: the control calls of
    the capture and of the write have been made, the name is recorded and
    the raw file is stored. *)
Local Abbreviation persisted e d w :=
  (wrpcap (capture_path (now e)) (sniff e d)
     (set_last_capture_file (capture_name (now e))
        (interfere (ctl_sniff e ++ ctl_write e) w))).

Lemma capture_once_before_check e d w :
  past_capture_check e d w = false ->
  capture_once run_pipeline e d w =
  (if running w then interfere (ctl_sniff e) w else w, Ok None).
Proof.
  unfold capture_once, past_capture_check.
  destruct (running w); simpl; [| done].
  destruct (length (sniff e d) =? 0)%nat; simpl; [done |].
  by destruct (running (interfere (ctl_sniff e) w)).
Qed.

Lemma capture_once_after_check e d w :
  past_capture_check e d w = true ->
  capture_once run_pipeline e d w =
  if running_at_pipeline_check e w then
    let '(disk, r) :=
      run_pipeline (fs (persisted e d w)) (capture_path (now e))
                   results_path true in
    (interfere (ctl_pipeline e)
       (set_fs disk (log_pipeline_call (capture_path (now e))
                                       (persisted e d w))),
     match r with
     | Ok df => Ok (Some df)
     | Raise x => Raise x
     end)
  else (persisted e d w, Ok None).
Proof.
  unfold capture_once, past_capture_check, running_at_pipeline_check.
  destruct (running w); simpl; [| done].
  destruct (length (sniff e d) =? 0)%nat; simpl; [done |].
  destruct (running (interfere (ctl_sniff e) w)) eqn:E1; simpl; [| done].
  intros _.
  rewrite interfere_wrpcap, interfere_set_last_capture_file, <- interfere_app.
  cbn [wrpcap set_fs set_last_capture_file running].
  destruct (running (interfere (ctl_sniff e ++ ctl_write e) w)); simpl; [| done].
  by destruct (run_pipeline _ _ _ _) as [disk [df | x]].
Qed.

Lemma persisted_fs e d w :
  fs (persisted e d w)
  = <[capture_path (now e) := FPcap (sniff e d)]> (fs w).
Proof.
  cbn [wrpcap set_fs set_last_capture_file fs].
  by destruct (interfere_frame (ctl_sniff e ++ ctl_write e) w) as (_ & -> & _).
Qed.

Lemma persisted_pipeline_calls e d w :
  pipeline_calls (persisted e d w) = pipeline_calls w.
Proof.
  cbn [wrpcap set_fs set_last_capture_file pipeline_calls].
  by destruct (interfere_frame (ctl_sniff e ++ ctl_write e) w) as (_ & _ & ->).
Qed.

(** X1: A cycle that is past its capture check and reads the flag as
    cleared at its last check before the pipeline: the raw capture is kept
    on disk under this cycle's name and is what [get_last_capture] now
    returns, the pipeline is not called, every other file is as before,
    and the cycle returns [None]. *)
Theorem capture_once_keeps_capture_when_stopped_before_pipeline e d w :
  past_capture_check e d w = true ->
  running_at_pipeline_check e w = false ->
  snd (capture_once run_pipeline e d w) = Ok None /\
  fs (fst (capture_once run_pipeline e d w))
  = <[capture_path (now e) := FPcap (sniff e d)]> (fs w) /\
  pipeline_calls (fst (capture_once run_pipeline e d w)) = pipeline_calls w /\
  get_last_capture (fst (capture_once run_pipeline e d w))
  = Some (capture_name (now e)).
Proof.
  intros Hp Hr. rewrite (capture_once_after_check e d w Hp), Hr.
  cbn [fst snd]. split; [done |]. split; [apply persisted_fs |].
  split; [apply persisted_pipeline_calls |]. done.
Qed.

(** X2: A cycle that reaches the pipeline calls it once, on files in which the
    raw capture is already stored under the path the pipeline is told to
    read, with the fixed results path and [is_pcap=True]; the cycle returns
    what the pipeline returns and raises what it raises, and the files are
    left as the pipeline left them. *)
Theorem capture_once_runs_pipeline_on_stored_capture e d w :
  past_capture_check e d w = true ->
  running_at_pipeline_check e w = true ->
  let disk_in := <[capture_path (now e) := FPcap (sniff e d)]> (fs w) in
  let call := run_pipeline disk_in (capture_path (now e)) results_path true in
  disk_in !! capture_path (now e) = Some (FPcap (sniff e d)) /\
  snd (capture_once run_pipeline e d w)
  = result_map Some (snd call) /\
  fs (fst (capture_once run_pipeline e d w)) = fst call /\
  pipeline_calls (fst (capture_once run_pipeline e d w))
  = capture_path (now e) :: pipeline_calls w.
Proof.
  intros Hp Hr. cbn zeta.
  rewrite (capture_once_after_check e d w Hp), Hr, persisted_fs.
  split; [apply lookup_insert_eq |].
  destruct (run_pipeline _ _ _ _) as [disk r]. cbn [fst snd].
  split; [by destruct r |].
  destruct (interfere_frame (ctl_pipeline e)
              (set_fs disk (log_pipeline_call (capture_path (now e))
                                              (persisted e d w))))
    as (_ & -> & ->).
  split; [done |]. cbn [set_fs log_pipeline_call pipeline_calls].
  by rewrite persisted_pipeline_calls.
Qed.

Lemma capture_once_pipeline_calls e d w :
  pipeline_calls (fst (capture_once run_pipeline e d w)) = pipeline_calls w \/
  pipeline_calls (fst (capture_once run_pipeline e d w))
  = capture_path (now e) :: pipeline_calls w.
Proof.
  destruct (past_capture_check e d w) eqn:Hp.
  - rewrite (capture_once_after_check e d w Hp).
    destruct (running_at_pipeline_check e w).
    + right. destruct (run_pipeline _ _ _ _) as [disk r]. cbn [fst].
      destruct (interfere_frame (ctl_pipeline e)
                  (set_fs disk (log_pipeline_call (capture_path (now e))
                                                  (persisted e d w))))
        as (_ & _ & ->).
      cbn [set_fs log_pipeline_call pipeline_calls].
      by rewrite persisted_pipeline_calls.
    + left. apply persisted_pipeline_calls.
  - left. rewrite (capture_once_before_check e d w Hp).
    destruct (running w); [apply interfere_frame | done].
Qed.

(** X3: A cycle that does not call the pipeline changes no file but its own
    raw capture: the results file and the captures taken at any other clock
    reading are as they were. *)
Theorem capture_once_without_pipeline_keeps_other_files e d w :
  pipeline_calls (fst (capture_once run_pipeline e d w)) = pipeline_calls w ->
  (forall p, p <> capture_path (now e) ->
     fs (fst (capture_once run_pipeline e d w)) !! p = fs w !! p) /\
  fs (fst (capture_once run_pipeline e d w)) !! results_path
  = fs w !! results_path /\
  (forall t, t <> now e ->
     fs (fst (capture_once run_pipeline e d w)) !! capture_path t
     = fs w !! capture_path t).
Proof.
  intros Hcalls.
  assert (Hother : forall p, p <> capture_path (now e) ->
            fs (fst (capture_once run_pipeline e d w)) !! p = fs w !! p).
  { intros p Hne. revert Hcalls.
    destruct (past_capture_check e d w) eqn:Hp.
    - rewrite (capture_once_after_check e d w Hp).
      destruct (running_at_pipeline_check e w).
      + destruct (run_pipeline _ _ _ _) as [disk r]. cbn [fst].
        destruct (interfere_frame (ctl_pipeline e)
                    (set_fs disk (log_pipeline_call (capture_path (now e))
                                                    (persisted e d w))))
          as (_ & _ & ->).
        cbn [set_fs log_pipeline_call pipeline_calls].
        rewrite persisted_pipeline_calls. intros H.
        apply (f_equal (@List.length string)) in H. simpl in H. lia.
      + intros _. cbn [fst]. rewrite persisted_fs.
        by rewrite lookup_insert_ne.
    - intros _. rewrite (capture_once_before_check e d w Hp).
      destruct (running w); [| done]. cbn [fst].
      by destruct (interfere_frame (ctl_sniff e) w) as (_ & -> & _). }
  split; [exact Hother |]. split.
  - apply Hother. intros H. by apply (capture_path_not_results (now e)).
  - intros t Hne. apply Hother. intros H. by apply capture_path_inj in H.
Qed.

Lemma capture_once_handle e d w :
  handle_tracks_launches w ->
  handle_tracks_launches (fst (capture_once run_pipeline e d w)).
Proof.
  intros H.
  assert (Hp : handle_tracks_launches (persisted e d w)).
  { pose proof (interfere_handle (ctl_sniff e ++ ctl_write e) w H) as H'.
    exact H'. }
  destruct (past_capture_check e d w) eqn:Hc.
  - rewrite (capture_once_after_check e d w Hc).
    destruct (running_at_pipeline_check e w); [| exact Hp].
    destruct (run_pipeline _ _ _ _) as [disk r]. cbn [fst].
    apply interfere_handle. exact Hp.
  - rewrite (capture_once_before_check e d w Hc).
    destruct (running w); [by apply interfere_handle | done].
Qed.

Lemma loop_handle envs : forall w,
  handle_tracks_launches w ->
  handle_tracks_launches (fst (fst (loop run_pipeline envs w))).
Proof.
  induction envs as [| e rest IH]; intros w H; simpl.
  - by destruct (negb (running w)).
  - destruct (negb (running w)); [done |].
    pose proof (capture_once_handle e 10 w H) as H1.
    destruct (capture_once run_pipeline e 10 w) as [w' [r | x]];
      cbn [fst] in H1; [| done].
    destruct (negb (running w')); [done |].
    pose proof (IH _ (interfere_handle (ctl_sleep e) w' H1)) as H2.
    by destruct (loop run_pipeline rest (interfere (ctl_sleep e) w'))
      as [[w'' o] n].
Qed.

(** X4: The thread handle always names the worker launched last: the fresh
    module satisfies this, and start and stop calls in any number and order
    and the whole run of the worker keep it.  In particular nothing ever
    clears the handle once a worker was launched, [stop_capture]
    included. *)
Theorem handle_always_names_latest_worker cs envs w :
  handle_tracks_launches w ->
  handle_tracks_launches (interfere cs w) /\
  handle_tracks_launches (fst (stop_capture w)) /\
  handle_tracks_launches (fst (fst (background_loop run_pipeline envs w))).
Proof.
  intros H. split; [by apply interfere_handle |]. split; [exact H |].
  unfold background_loop. by apply loop_handle.
Qed.

(** X5: The loop returns normally only with [running] cleared; when the
    supplied cycles run out with the loop still going, [running] is set and
    every supplied cycle was begun; and never more cycles begin than were
    supplied. *)
Theorem background_loop_exits_only_when_stopped envs w :
  match snd (fst (background_loop run_pipeline envs w)) with
  | Exited =>
    running (fst (fst (background_loop run_pipeline envs w))) = false
  | Pending =>
    running (fst (fst (background_loop run_pipeline envs w))) = true /\
    snd (background_loop run_pipeline envs w) = length envs
  | Crashed _ => True
  end /\
  snd (background_loop run_pipeline envs w) <= length envs.
Proof.
  unfold background_loop. generalize (set_running true w). clear w.
  induction envs as [| e rest IH]; intros w; simpl.
  - destruct (running w) eqn:E; simpl; rewrite ?E; auto.
  - destruct (running w) eqn:E; simpl; [| rewrite E; split; [done | lia]].
    destruct (capture_once run_pipeline e 10 w) as [w' [r | x]];
      [| simpl; split; [done | lia]].
    destruct (running w') eqn:E'; simpl; [| rewrite E'; split; [done | lia]].
    specialize (IH (interfere (ctl_sleep e) w')).
    destruct (loop run_pipeline rest (interfere (ctl_sleep e) w'))
      as [[w'' o] n].
    cbn [fst snd] in *. destruct IH as [IH1 IH2]. split; [| lia].
    destruct o; [done | done |]. destruct IH1 as [-> ->]. done.
Qed.

Lemma loop_pipeline_calls envs : forall w,
  exists new,
    pipeline_calls (fst (fst (loop run_pipeline envs w)))
    = (new ++ pipeline_calls w)%list /\
    length new <= snd (loop run_pipeline envs w) /\
    forall p, p ∈ new -> exists e, e ∈ envs /\ p = capture_path (now e).
Proof.
  induction envs as [| e rest IH]; intros w; simpl.
  - exists []. destruct (negb (running w)); split; try done;
      (split; [simpl; lia | intros p Hp; by apply elem_of_nil in Hp]).
  - destruct (negb (running w)).
    { exists []. split; [done |]. split; [simpl; lia |].
      intros p Hp. by apply elem_of_nil in Hp. }
    assert (Hone : exists one,
      pipeline_calls (fst (capture_once run_pipeline e 10 w))
      = (one ++ pipeline_calls w)%list /\ length one <= 1 /\
      forall p, p ∈ one -> p = capture_path (now e)).
    { destruct (capture_once_pipeline_calls e 10 w) as [-> | ->].
      - exists []. split; [done |]. split; [simpl; lia |].
        intros p Hp. by apply elem_of_nil in Hp.
      - exists [capture_path (now e)]. split; [done |]. split; [simpl; lia |].
        intros p Hp. by apply list_elem_of_singleton in Hp. }
    destruct Hone as (one & Hone & Hlen & Hin).
    assert (Hlift : forall p, p ∈ one ->
              exists e0, e0 ∈ e :: rest /\ p = capture_path (now e0)).
    { intros p Hp. exists e. split; [apply elem_of_cons; by left | auto]. }
    destruct (capture_once run_pipeline e 10 w) as [w' [r | x]];
      cbn [fst] in Hone.
    2: { exists one. cbn [fst snd]. auto. }
    destruct (negb (running w')).
    { exists one. cbn [fst snd]. auto. }
    destruct (IH (interfere (ctl_sleep e) w')) as (new & Hnew & Hn & Hfrom).
    destruct (loop run_pipeline rest (interfere (ctl_sleep e) w'))
      as [[w'' o] n].
    cbn [fst snd] in *. exists (new ++ one)%list.
    destruct (interfere_frame (ctl_sleep e) w') as (_ & _ & Hsl).
    rewrite Hnew, Hsl, Hone, app_assoc. split; [done |].
    split; [rewrite length_app; lia |].
    intros p Hp. apply elem_of_app in Hp as [Hp | Hp]; [| by apply Hlift].
    destruct (Hfrom p Hp) as (e0 & He0 & ->).
    exists e0. split; [apply elem_of_cons; by right | done].
Qed.

(** X6: The worker calls the pipeline at most once per cycle it begins, and
    only on capture paths of its own cycles: what [background_loop] adds to
    the calls made so far is no longer than the number of cycles begun and
    holds only paths [live/capture_<timestamp>.pcap] of those cycles. *)
Theorem background_loop_calls_pipeline_at_most_once_per_cycle envs w :
  exists new,
    pipeline_calls (fst (fst (background_loop run_pipeline envs w)))
    = (new ++ pipeline_calls w)%list /\
    length new <= snd (background_loop run_pipeline envs w) /\
    forall p, p ∈ new -> exists e, e ∈ envs /\ p = capture_path (now e).
Proof.
  unfold background_loop.
  exact (loop_pipeline_calls envs (set_running true w)).
Qed.

Lemma loop_last_capture envs : forall w,
  get_last_capture (fst (fst (loop run_pipeline envs w))) = get_last_capture w \/
  exists e, e ∈ envs /\
    get_last_capture (fst (fst (loop run_pipeline envs w)))
    = Some (capture_name (now e)).
Proof.
  induction envs as [| e rest IH]; intros w; simpl.
  - left. by destruct (negb (running w)).
  - destruct (negb (running w)); [by left |].
    assert (Hone :
      get_last_capture (fst (capture_once run_pipeline e 10 w))
      = get_last_capture w \/
      get_last_capture (fst (capture_once run_pipeline e 10 w))
      = Some (capture_name (now e))).
    { unfold get_last_capture at 1 3.
      rewrite (capture_once_last_capture_file run_pipeline e 10 w).
      destruct (past_capture_check e 10 w); [right | by left].
      by rewrite capture_name_not_empty. }
    assert (Hlift :
      forall w1, get_last_capture w1
                 = get_last_capture (fst (capture_once run_pipeline e 10 w)) ->
      get_last_capture w1 = get_last_capture w \/
      exists e0, e0 ∈ e :: rest /\
        get_last_capture w1 = Some (capture_name (now e0))).
    { intros w1 ->. destruct Hone as [-> | ->]; [by left | right].
      exists e. split; [apply elem_of_cons; by left | done]. }
    destruct (capture_once run_pipeline e 10 w) as [w' [r | x]];
      cbn [fst] in *; [| by apply Hlift].
    destruct (negb (running w')); [by apply Hlift |].
    specialize (IH (interfere (ctl_sleep e) w')).
    destruct (loop run_pipeline rest (interfere (ctl_sleep e) w'))
      as [[w'' o] n].
    cbn [fst] in *. destruct IH as [IH | (e0 & He0 & IH)].
    + apply Hlift. rewrite IH. unfold get_last_capture.
      by destruct (interfere_frame (ctl_sleep e) w') as (-> & _ & _).
    + right. exists e0. split; [apply elem_of_cons; by right | done].
Qed.

(** X7: What [get_last_capture] returns after the worker has run is what it
    returned before or the capture name of one of the worker's cycles: a
    name, once known, is replaced only by a newer capture's name and never
    goes back to [None]. *)
Theorem background_loop_keeps_a_capture_name envs w :
  (get_last_capture (fst (fst (background_loop run_pipeline envs w)))
   = get_last_capture w \/
   exists e, e ∈ envs /\
     get_last_capture (fst (fst (background_loop run_pipeline envs w)))
     = Some (capture_name (now e))) /\
  (is_Some (get_last_capture w) ->
   is_Some (get_last_capture
              (fst (fst (background_loop run_pipeline envs w))))).
Proof.
  assert (H := loop_last_capture envs (set_running true w)).
  fold (background_loop run_pipeline envs w) in H.
  change (get_last_capture (set_running true w))
    with (get_last_capture w) in H.
  split; [exact H |].
  intros Hs. destruct H as [-> | (e & _ & ->)]; [done | by eexists].
Qed.

(** X8: A stop in effect when a cycle returns, or when the pause after it
    ends, ends the loop before another capture begins: the loop returns
    normally having begun this one cycle only, whatever cycles could have
    followed. *)
Theorem background_loop_honours_stop_after_cycle e rest w :
  (exists r, snd (capture_once run_pipeline e 10 (set_running true w)) = Ok r) ->
  running (fst (capture_once run_pipeline e 10 (set_running true w))) = false \/
  running (interfere (ctl_sleep e)
             (fst (capture_once run_pipeline e 10 (set_running true w))))
  = false ->
  snd (fst (background_loop run_pipeline (e :: rest) w)) = Exited /\
  snd (background_loop run_pipeline (e :: rest) w) = 1.
Proof.
  intros [r Hr] Hstop. unfold background_loop. simpl loop.
  destruct (capture_once run_pipeline e 10 (set_running true w)) as [w' r'].
  cbn [fst snd] in *. subst r'.
  destruct (running w') eqn:E; simpl; [| done].
  destruct Hstop as [? | Hsl]; [done |].
  destruct rest as [| e' rest']; simpl; by rewrite Hsl.
Qed.






End WorkerCycle.


Lemma apply_ctl_launched w c :
  launched w <= launched (apply_ctl w c) /\
  launched (apply_ctl w c) + (if running (apply_ctl w c) then 0 else 1)
  <= launched w + (if running w then 0 else 1)
     + match c with CStop => 1 | CStart => 0 end.
Proof.
  destruct c; simpl.
  - unfold start_capture. destruct (running w) eqn:E; simpl; rewrite ?E; lia.
  - destruct (running w); lia.
Qed.

(** X9: Start and stop calls in any number and order launch at most one worker
    more than there are stops among them, and none more than the stops when
    a worker was running at the outset; and the count of launched workers
    never goes down. *)
Theorem launches_bounded_by_stops cs w :
  launched w <= launched (interfere cs w) /\
  launched (interfere cs w)
  <= launched w + count_stops cs + (if running w then 0 else 1).
Proof.
  revert w. induction cs as [| c cs IH]; intros w; simpl.
  - destruct (running w); lia.
  - destruct (IH (apply_ctl w c)) as [IH1 IH2].
    destruct (apply_ctl_launched w c) as [H1 H2].
    destruct c; destruct (running (apply_ctl w CStart));
      destruct (running (apply_ctl w CStop)); destruct (running w);
      simpl in *; lia.
Qed.

Lemma apply_ctl_running_launched w c :
  (running w = true -> 0 < launched w) ->
  running (apply_ctl w c) = true -> 0 < launched (apply_ctl w c).
Proof.
  destruct c; simpl; [| done].
  unfold start_capture. destruct (running w) eqn:E; simpl; [auto | lia].
Qed.

(** X10: After any start and stop calls on the fresh module, a set running flag
    means a worker was launched and its handle is stored. *)
Theorem running_implies_worker_handle cs :
  running (interfere cs initial_world) = true ->
  0 < launched (interfere cs initial_world) /\
  loop_thread (interfere cs initial_world)
  = Some (pred (launched (interfere cs initial_world))).
Proof.
  assert (Hinv : forall w, (running w = true -> 0 < launched w) ->
            running (interfere cs w) = true -> 0 < launched (interfere cs w)).
  { induction cs as [| c cs IH]; intros w Hw; simpl; [done |].
    apply IH. by apply apply_ctl_running_launched. }
  intros Hr. assert (Hl := Hinv initial_world ltac:(done) Hr).
  split; [exact Hl |].
  assert (Hh : handle_tracks_launches (interfere cs initial_world))
    by (by apply interfere_handle).
  unfold handle_tracks_launches in Hh. rewrite Hh.
  destruct (launched (interfere cs initial_world)); [lia | done].
Qed.

(** X11: A stop and a start that both happen while the worker is blocked in one
    capture go unnoticed by it: the flag is set again when the capture
    returns, so the cycle goes on past its check, and a second worker has
    been launched beside it. *)
Theorem restart_during_capture_goes_unnoticed e d w :
  running w = true ->
  ctl_sniff e = [CStop; CStart] ->
  sniff e d <> [] ->
  past_capture_check e d w = true /\
  launched (interfere (ctl_sniff e) w) = S (launched w) /\
  loop_thread (interfere (ctl_sniff e) w) = Some (launched w).
Proof.
  intros Hr Hc Hs. unfold past_capture_check. rewrite Hr, Hc.
  destruct (sniff e d) as [| p ps]; [done |]. simpl.
  unfold start_capture. simpl. done.
Qed.

(* ================================================================== *)
(** * Further properties of the status endpoint *)

Lemma replace_nan_with_none_plain v :
  plain (replace_nan_with_none v) = true.
Proof.
  induction v as [| b | z | f | s | items IH | items IH]
    using pyval_nested_ind; simpl; try done.
  - by destruct f.
  - induction IH as [| x xs Hx _ IHxs]; simpl; [done |].
    by rewrite Hx, IHxs.
  - induction IH as [| [k x] xs Hx _ IHxs]; simpl; [done |].
    simpl in Hx. by rewrite Hx, IHxs.
Qed.

Lemma replace_nan_with_none_plain_id v :
  plain v = true -> replace_nan_with_none v = v.
Proof.
  induction v as [| b | z | f | s | items IH | items IH]
    using pyval_nested_ind; simpl; try done.
  - by destruct f.
  - intros H. f_equal.
    induction IH as [| x xs Hx _ IHxs]; simpl in *; [done |].
    apply andb_prop in H as [H1 H2]. by rewrite Hx, IHxs.
  - intros H. f_equal.
    induction IH as [| [k x] xs Hx _ IHxs]; simpl in *; [done |].
    apply andb_prop in H as [H1 H2]. by rewrite Hx, IHxs.
Qed.

(** X12: Cleaning a value twice is cleaning it once. *)
Theorem replace_nan_with_none_idempotent v :
  replace_nan_with_none (replace_nan_with_none v) = replace_nan_with_none v.
Proof.
  apply replace_nan_with_none_plain_id, replace_nan_with_none_plain.
Qed.

(** X13: The values [replace_nan_with_none] returns unchanged are exactly those
    that hold neither a not-a-number nor a Python [bool], at any depth:
    besides turning not-a-number into [None] the function turns [True] and
    [False] into the integers 1 and 0, and it changes nothing else. *)
Theorem replace_nan_with_none_fixes_exactly_plain v :
  replace_nan_with_none v = v <-> plain v = true.
Proof.
  split.
  - intros H. rewrite <- H. apply replace_nan_with_none_plain.
  - apply replace_nan_with_none_plain_id.
Qed.

Lemma replace_cell_value c :
  replace_nan_with_none (cell_value c) = json_cell c.
Proof. by destruct c. Qed.

Lemma json_cell_missing c : isna c = true -> json_cell c = VNone.
Proof. destruct c as [| | | f |]; try done. simpl. by intros ->. Qed.

Lemma json_cell_replace r i :
  json_cell (row_get (map nan_to_none r) i) = json_cell (row_get r i).
Proof.
  destruct (row_get_replace_cases r i) as [[H1 H2] | [H1 H2]].
  - by rewrite !json_cell_missing.
  - by rewrite H2.
Qed.

Lemma column_index_elem name cols :
  (name ∈ cols -> exists i, column_index name cols = Some i) /\
  (name ∉ cols -> column_index name cols = None).
Proof.
  induction cols as [| c cols [IH1 IH2]]; simpl.
  - split; [intros H; by apply elem_of_nil in H | done].
  - destruct (String.eqb c name) eqn:E.
    + apply String.eqb_eq in E as ->. split; [by eexists |].
      intros H. exfalso. apply H, elem_of_cons. by left.
    + apply String.eqb_neq in E. split.
      * intros H. apply elem_of_cons in H as [-> | H]; [done |].
        destruct (IH1 H) as [i ->]. by eexists.
      * intros H. rewrite IH2; [done |].
        intros H'. apply H, elem_of_cons. by right.
Qed.

Lemma count_three (g : list cell -> cell) (c1 c2 c3 : cell) rows :
  c1 <> c2 -> c1 <> c3 -> c2 <> c3 ->
  length (filter (fun r => g r = c1) rows)
  + length (filter (fun r => g r = c2) rows)
  + length (filter (fun r => g r = c3) rows) <= length rows /\
  (length (filter (fun r => g r = c1) rows)
   + length (filter (fun r => g r = c2) rows)
   + length (filter (fun r => g r = c3) rows) = length rows <->
   Forall (fun r => g r ∈ [c1; c2; c3]) rows).
Proof.
  intros H12 H13 H23.
  induction rows as [| r rows [IHle IHeq]].
  - split; [simpl; lia |]. split; [constructor | done].
  - rewrite !filter_cons, Forall_cons.
    destruct (decide (g r = c1)) as [E1 | E1];
      destruct (decide (g r = c2)) as [E2 | E2];
      destruct (decide (g r = c3)) as [E3 | E3];
      simpl; try congruence.
    + split; [lia |]. split.
      * intros H. split; [| apply IHeq; lia].
        rewrite E1. apply elem_of_cons; by left.
      * intros [_ H]. pose proof (proj2 IHeq H). lia.
    + split; [lia |]. split.
      * intros H. split; [| apply IHeq; lia].
        rewrite E2. apply elem_of_cons; right. apply elem_of_cons; by left.
      * intros [_ H]. pose proof (proj2 IHeq H). lia.
    + split; [lia |]. split.
      * intros H. split; [| apply IHeq; lia].
        rewrite E3. apply elem_of_cons; right.
        apply elem_of_cons; right. apply elem_of_cons; by left.
      * intros [_ H]. pose proof (proj2 IHeq H). lia.
    + split; [lia |]. split; [lia |].
      intros [H _]. rewrite !elem_of_cons in H.
      destruct H as [? | [? | [? | H]]]; try done. by apply elem_of_nil in H.
Qed.

Lemma present_all_missing xs :
  (forall k, k ∈ xs -> isna k = true) -> present xs = [].
Proof.
  unfold present. induction xs as [| x xs IH]; intros H; [done |].
  rewrite filter_cons, decide_False.
  - apply IH. intros k Hk. apply H, elem_of_cons. by right.
  - rewrite (H x); [done | apply elem_of_cons; by left].
Qed.

Section StatusMore.

Variable float_repr : spec_float -> string.

(** X14: Every row of the results file becomes one record of [all_flows], keyed
    by the file's columns in their order, and each cell reads as follows:
    a missing cell as [None], a [bool] as 0 or 1, any other cell as it is
    (an infinity included). *)
Theorem live_status_all_flows_cell_by_cell w table l :
  fs w !! results_path = Some (FCsv table) ->
  column_index "Label" (df_columns table) = Some l ->
  exists snap,
    live_status float_repr w = Ok snap /\
    all_flows snap =
    VList (map (fun r =>
                  VDict (imap (fun i c => (c, json_cell (row_get r i)))
                              (df_columns table)))
               (df_rows table)) /\
    flows snap = Z.of_nat (length (df_rows table)).
Proof.
  intros Hfs Hl. eexists.
  split; [exact (live_status_of_table float_repr w table l Hfs Hl) |].
  cbn [all_flows flows]. split; [| done].
  unfold to_records, df_replace_nan. cbn [df_rows df_columns].
  cbn [replace_nan_with_none]. f_equal.
  rewrite !map_map. apply map_ext. intros r.
  cbn [replace_nan_with_none]. f_equal.
  change (map ?f (imap ?g ?l)) with (f <$> imap g l).
  rewrite fmap_imap. apply imap_ext. intros i c _. simpl. f_equal.
  by rewrite replace_cell_value, !json_cell_replace.
Qed.

(** X15: The three counts of the summary never add up to more than the number of
    flows, and they add up to it exactly when every row carries one of the
    three labels: rows with another label, or none, are in [flows] and in
    [all_flows] but in no count. *)
Theorem live_status_summary_sums_to_flows w table l :
  fs w !! results_path = Some (FCsv table) ->
  column_index "Label" (df_columns table) = Some l ->
  exists snap b a k,
    live_status float_repr w = Ok snap /\
    summary snap !! "BENIGN" = Some b /\
    summary snap !! "ANOMALY" = Some a /\
    summary snap !! "ATTACK" = Some k /\
    (0 <= b /\ 0 <= a /\ 0 <= k)%Z /\
    (b + a + k <= flows snap)%Z /\
    ((b + a + k)%Z = flows snap <->
     Forall (fun r => row_get r l ∈ known_labels) (df_rows table)).
Proof.
  intros Hfs Hl. eexists _, _, _, _.
  split; [exact (live_status_of_table float_repr w table l Hfs Hl) |].
  cbn [summary flows].
  split; [done |]. split; [done |]. split; [done |].
  cbn [df_where_eq df_rows].
  destruct (count_three (fun r => row_get r l) (CStr "BENIGN")
              (CStr "ANOMALY") (CStr "ATTACK") (df_rows table))
    as [Hle Heq]; [done | done | done |].
  split; [lia |]. split; [lia |].
  unfold known_labels. rewrite <- Heq. lia.
Qed.

(** X16: With a results file in place the status read has no handler of
    its own for what goes wrong: whatever [read_csv] raises on the file (on
    an empty file, [EmptyDataError]) leaves [live_status] as it is, and a
    file that parses to a table without a [Label] column gives
    [KeyError('Label')]; a file that parses to a table with a [Label]
    column gives a snapshot whatever its rows hold. *)
Theorem live_status_raises_on_unreadable_or_unlabelled_file w f :
  fs w !! results_path = Some f ->
  (forall x, read_csv results_path f = Raise x ->
     live_status float_repr w = Raise x) /\
  (forall table, f = FCsv table -> df_columns table = [] ->
     exists msg, live_status float_repr w = Raise (EmptyDataError msg)) /\
  (forall table, read_csv results_path f = Ok table ->
     ("Label" ∉ df_columns table ->
      live_status float_repr w = Raise (KeyError "Label")) /\
     ("Label" ∈ df_columns table ->
      exists snap, live_status float_repr w = Ok snap)).
Proof.
  intros Hfs. split; [| split].
  - intros x Hx. unfold live_status. by rewrite Hfs, Hx.
  - intros table -> Hcols. unfold live_status. rewrite Hfs.
    unfold read_csv. rewrite Hcols. by eexists.
  - intros table Hread.
    destruct (column_index_elem "Label" (df_columns table)) as [Hin Hout].
    split.
    + intros H. unfold live_status. rewrite Hfs, Hread. unfold df_getitem.
      by rewrite column_index_replace, Hout.
    + intros H. destruct (Hin H) as [l Hl]. eexists.
      apply (live_status_of_table float_repr w table l); [| exact Hl].
      rewrite Hfs. f_equal. symmetry. by apply read_csv_Ok in Hread.
Qed.

(** X17: Every count in [attack_types] is at least one and at most the ATTACK
    count of the summary; and [attack_types] is empty when no ATTACK row
    has an attack type (no such column, no such row, or the cell missing
    in each of them). *)
Theorem live_status_attack_types_within_attack_count w table l :
  fs w !! results_path = Some (FCsv table) ->
  column_index "Label" (df_columns table) = Some l ->
  exists snap k,
    live_status float_repr w = Ok snap /\
    summary snap !! "ATTACK" = Some k /\
    (forall s n, attack_types snap !! s = Some n -> (1 <= n <= k)%Z) /\
    ((forall c, c ∈ attack_type_cells table l -> isna c = true) ->
     attack_types snap = ∅).
Proof.
  intros Hfs Hl. eexists _, _.
  split; [exact (live_status_of_table float_repr w table l Hfs Hl) |].
  cbn [summary attack_types]. split; [done |].
  assert (Hlen : length (attack_type_cells table l)
                 <= length (df_rows (df_where_eq table l (CStr "ATTACK")))).
  { unfold attack_type_cells.
    destruct (column_index "Attack_Type" (df_columns table));
      [by rewrite length_map | simpl; lia]. }
  split.
  - intros s n H. unfold attack_dict in H.
    apply attack_fold_sound in H as [H | (c & v & Hin & _ & _ & ->)].
    { by rewrite lookup_empty in H. }
    apply elem_of_value_counts in Hin as (Hin & _ & ->).
    apply list_elem_of_In in Hin.
    pose proof (proj1 (count_occ_In cell_eq_dec _ _) Hin) as H1.
    pose proof (count_occ_bound cell_eq_dec c (attack_type_cells table l))
      as H2.
    lia.
  - intros Hall. unfold value_counts.
    fold (present (attack_type_cells table l)).
    by rewrite (present_all_missing _ Hall).
Qed.

Lemma live_status_same_files w w' :
  fs w' = fs w -> last_capture_file w' = last_capture_file w ->
  live_status float_repr w'
  = result_map (with_running (running w')) (live_status float_repr w).
Proof.
  intros Hf Hc. unfold live_status, get_last_capture, is_running.
  rewrite Hf, Hc.
  destruct (fs w !! results_path) as [f |]; [| done].
  destruct (read_csv results_path f) as [table | x]; [| done].
  by destruct (df_getitem _ _).
Qed.

(** X18: Starting and stopping change nothing in what the status read returns
    but its [running] field, which reads true after [start_live] and false
    after [stop_live], whether or not a worker was running before and
    whether or not the status read fails. *)
Theorem live_status_after_start_and_stop w :
  live_status float_repr (fst (start_live w))
  = result_map (with_running true) (live_status float_repr w) /\
  live_status float_repr (fst (stop_live w))
  = result_map (with_running false) (live_status float_repr w).
Proof.
  split.
  - rewrite (live_status_same_files w (fst (start_live w))).
    + unfold start_live. cbn [fst]. by rewrite start_capture_sets_running.
    + unfold start_live, start_capture. by destruct (running w).
    + unfold start_live, start_capture. by destruct (running w).
  - by rewrite (live_status_same_files w (fst (stop_live w))).
Qed.

End StatusMore.

(* ================================================================== *)
(** * The further properties at sample inputs *)

Lemma capture_once_keeps_capture_when_stopped_before_pipeline_witness :
  past_capture_check (stop_during_write_cycle "2024-01-01_00-00-00") 10
    started_world = true /\
  running_at_pipeline_check (stop_during_write_cycle "2024-01-01_00-00-00")
    started_world = false /\
  snd (capture_once (constant_pipeline scenario_table)
         (stop_during_write_cycle "2024-01-01_00-00-00") 10 started_world)
  = Ok None /\
  fs (fst (capture_once (constant_pipeline scenario_table)
             (stop_during_write_cycle "2024-01-01_00-00-00") 10
             started_world))
  = <[capture_path "2024-01-01_00-00-00" := FPcap [Packet [69%Z]]]>
      (fs started_world).
Proof.
  assert (H1 : past_capture_check
                 (stop_during_write_cycle "2024-01-01_00-00-00") 10
                 started_world = true) by reflexivity.
  assert (H2 : running_at_pipeline_check
                 (stop_during_write_cycle "2024-01-01_00-00-00")
                 started_world = false) by reflexivity.
  split; [exact H1 |]. split; [exact H2 |].
  destruct (capture_once_keeps_capture_when_stopped_before_pipeline
              (constant_pipeline scenario_table) _ 10 started_world H1 H2)
    as (Ha & Hb & _).
  split; [exact Ha | exact Hb].
Defined.

Lemma capture_once_runs_pipeline_on_stored_capture_witness :
  past_capture_check (quiet_cycle "2024-01-01_00-00-00") 10 started_world
  = true /\
  running_at_pipeline_check (quiet_cycle "2024-01-01_00-00-00") started_world
  = true /\
  pipeline_calls
    (fst (capture_once (constant_pipeline scenario_table)
            (quiet_cycle "2024-01-01_00-00-00") 10 started_world))
  = capture_path "2024-01-01_00-00-00" :: pipeline_calls started_world.
Proof.
  assert (H1 : past_capture_check (quiet_cycle "2024-01-01_00-00-00") 10
                 started_world = true) by reflexivity.
  assert (H2 : running_at_pipeline_check (quiet_cycle "2024-01-01_00-00-00")
                 started_world = true) by reflexivity.
  split; [exact H1 |]. split; [exact H2 |].
  exact (proj2 (proj2 (proj2
           (capture_once_runs_pipeline_on_stored_capture
              (constant_pipeline scenario_table) _ 10 started_world H1 H2)))).
Defined.

Lemma capture_once_without_pipeline_keeps_other_files_witness :
  pipeline_calls
    (fst (capture_once (constant_pipeline scenario_table)
            (stop_during_write_cycle "2024-01-01_00-00-00") 10
            started_world))
  = pipeline_calls started_world /\
  fs (fst (capture_once (constant_pipeline scenario_table)
             (stop_during_write_cycle "2024-01-01_00-00-00") 10
             started_world)) !! results_path
  = fs started_world !! results_path.
Proof.
  assert (H : pipeline_calls
                (fst (capture_once (constant_pipeline scenario_table)
                        (stop_during_write_cycle "2024-01-01_00-00-00") 10
                        started_world))
              = pipeline_calls started_world) by reflexivity.
  split; [exact H |].
  exact (proj1 (proj2 (capture_once_without_pipeline_keeps_other_files
                         (constant_pipeline scenario_table) _ 10
                         started_world H))).
Defined.

Lemma handle_always_names_latest_worker_witness :
  handle_tracks_launches initial_world /\
  handle_tracks_launches (interfere [CStart; CStop; CStart] initial_world) /\
  handle_tracks_launches (fst (stop_capture initial_world)) /\
  handle_tracks_launches
    (fst (fst (background_loop failing_pipeline
                 [quiet_cycle "2024-01-01_00-00-00"] initial_world))).
Proof.
  assert (H : handle_tracks_launches initial_world) by reflexivity.
  split; [exact H |].
  exact (handle_always_names_latest_worker failing_pipeline
           [CStart; CStop; CStart] [quiet_cycle "2024-01-01_00-00-00"]
           initial_world H).
Defined.

Lemma background_loop_honours_stop_after_cycle_witness :
  (exists r, snd (capture_once failing_pipeline
                    (stopped_cycle "2024-01-01_00-00-00") 10
                    (set_running true started_world)) = Ok r) /\
  snd (fst (background_loop failing_pipeline
              [stopped_cycle "2024-01-01_00-00-00";
               quiet_cycle "2024-01-01_00-00-11"] started_world)) = Exited /\
  snd (background_loop failing_pipeline
         [stopped_cycle "2024-01-01_00-00-00";
          quiet_cycle "2024-01-01_00-00-11"] started_world) = 1.
Proof.
  assert (H1 : exists r, snd (capture_once failing_pipeline
                                (stopped_cycle "2024-01-01_00-00-00") 10
                                (set_running true started_world)) = Ok r).
  { exists None. reflexivity. }
  split; [exact H1 |].
  apply (background_loop_honours_stop_after_cycle failing_pipeline
           (stopped_cycle "2024-01-01_00-00-00")
           [quiet_cycle "2024-01-01_00-00-11"] started_world H1).
  left. reflexivity.
Defined.

Lemma running_implies_worker_handle_witness :
  running (interfere [CStart; CStop; CStart] initial_world) = true /\
  0 < launched (interfere [CStart; CStop; CStart] initial_world) /\
  loop_thread (interfere [CStart; CStop; CStart] initial_world)
  = Some (pred (launched (interfere [CStart; CStop; CStart] initial_world))).
Proof.
  split; [reflexivity |].
  apply (running_implies_worker_handle [CStart; CStop; CStart]).
  reflexivity.
Defined.

Lemma restart_during_capture_goes_unnoticed_witness :
  running started_world = true /\
  ctl_sniff (restart_cycle "2024-01-01_00-00-00") = [CStop; CStart] /\
  sniff (restart_cycle "2024-01-01_00-00-00") 10 <> [] /\
  past_capture_check (restart_cycle "2024-01-01_00-00-00") 10 started_world
  = true /\
  launched (interfere (ctl_sniff (restart_cycle "2024-01-01_00-00-00"))
              started_world) = S (launched started_world) /\
  loop_thread (interfere (ctl_sniff (restart_cycle "2024-01-01_00-00-00"))
                 started_world) = Some (launched started_world).
Proof.
  assert (H3 : sniff (restart_cycle "2024-01-01_00-00-00") 10 <> [])
    by discriminate.
  split; [reflexivity |]. split; [reflexivity |]. split; [exact H3 |].
  exact (restart_during_capture_goes_unnoticed
           (restart_cycle "2024-01-01_00-00-00") 10 started_world
           eq_refl eq_refl H3).
Defined.

Lemma live_status_all_flows_cell_by_cell_witness :
  fs (world_with_results scenario_table) !! results_path
  = Some (FCsv scenario_table) /\
  column_index "Label" (df_columns scenario_table) = Some 1 /\
  exists snap,
    live_status (fun _ => "nan") (world_with_results scenario_table)
    = Ok snap /\
    flows snap = 3%Z.
Proof.
  assert (H1 : fs (world_with_results scenario_table) !! results_path
               = Some (FCsv scenario_table)) by reflexivity.
  assert (H2 : column_index "Label" (df_columns scenario_table) = Some 1)
    by reflexivity.
  split; [exact H1 |]. split; [exact H2 |].
  destruct (live_status_all_flows_cell_by_cell (fun _ => "nan") _ _ _ H1 H2)
    as (snap & Hs & _ & Hf).
  exists snap. split; [exact Hs | exact Hf].
Defined.

Lemma live_status_summary_sums_to_flows_witness :
  fs (world_with_results scenario_table) !! results_path
  = Some (FCsv scenario_table) /\
  column_index "Label" (df_columns scenario_table) = Some 1 /\
  exists snap b a k,
    live_status (fun _ => "nan") (world_with_results scenario_table)
    = Ok snap /\
    summary snap !! "BENIGN" = Some b /\
    summary snap !! "ANOMALY" = Some a /\
    summary snap !! "ATTACK" = Some k /\
    (b + a + k <= flows snap)%Z.
Proof.
  assert (H1 : fs (world_with_results scenario_table) !! results_path
               = Some (FCsv scenario_table)) by reflexivity.
  assert (H2 : column_index "Label" (df_columns scenario_table) = Some 1)
    by reflexivity.
  split; [exact H1 |]. split; [exact H2 |].
  destruct (live_status_summary_sums_to_flows (fun _ => "nan") _ _ _ H1 H2)
    as (snap & b & a & k & Hs & Hb & Ha & Hk & _ & Hle & _).
  exists snap, b, a, k. repeat split; assumption.
Defined.

Lemma live_status_raises_on_unreadable_or_unlabelled_file_witness :
  fs (world_with_results unlabelled_table) !! results_path
  = Some (FCsv unlabelled_table) /\
  read_csv results_path (FCsv unlabelled_table) = Ok unlabelled_table /\
  ("Label" ∉ df_columns unlabelled_table) /\
  live_status (fun _ => "nan") (world_with_results unlabelled_table)
  = Raise (KeyError "Label").
Proof.
  assert (H1 : fs (world_with_results unlabelled_table) !! results_path
               = Some (FCsv unlabelled_table)) by reflexivity.
  assert (H2 : "Label" ∉ df_columns unlabelled_table).
  { simpl. rewrite list_elem_of_singleton. discriminate. }
  split; [exact H1 |]. split; [reflexivity |]. split; [exact H2 |].
  exact (proj1 (proj2 (proj2
           (live_status_raises_on_unreadable_or_unlabelled_file
              (fun _ => "nan") _ _ H1)) unlabelled_table eq_refl) H2).
Defined.

Lemma live_status_attack_types_within_attack_count_witness :
  fs (world_with_results scenario_table) !! results_path
  = Some (FCsv scenario_table) /\
  column_index "Label" (df_columns scenario_table) = Some 1 /\
  exists snap k,
    live_status (fun _ => "nan") (world_with_results scenario_table)
    = Ok snap /\
    summary snap !! "ATTACK" = Some k /\
    (forall s n, attack_types snap !! s = Some n -> (1 <= n <= k)%Z).
Proof.
  assert (H1 : fs (world_with_results scenario_table) !! results_path
               = Some (FCsv scenario_table)) by reflexivity.
  assert (H2 : column_index "Label" (df_columns scenario_table) = Some 1)
    by reflexivity.
  split; [exact H1 |]. split; [exact H2 |].
  destruct (live_status_attack_types_within_attack_count
              (fun _ => "nan") _ _ _ H1 H2)
    as (snap & k & Hs & Hk & Hb & _).
  exists snap, k. repeat split; try assumption; by apply (Hb s n).
Defined.

(* ================================================================== *)
(** * The upload endpoint *)

Lemma forallb_false_elem {A : Type} (f : A -> bool) (l : list A) x :
  x ∈ l -> f x = false -> forallb f l = false.
Proof.
  induction l as [| y l IH]; intros Hin Hx.
  - by apply elem_of_nil in Hin.
  - simpl. apply elem_of_cons in Hin as [<- | Hin].
    + by rewrite Hx.
    + rewrite (IH Hin Hx). apply andb_false_r.
Qed.

Lemma value_counts_keys xs :
  map fst (value_counts xs) = remove_dups (present xs).
Proof.
  unfold value_counts. fold (present xs).
  rewrite map_map. simpl. apply map_id.
Qed.

Section PredictFacts.

Variable run_pipeline :
  gmap string file -> string -> string -> bool ->
  gmap string file * result DataFrame.
Variable path_join : string -> string -> string.
Variable path_name : string -> string.
Variable st_size : file -> Z.
Variable exn_str : exn -> string.
Variable JSONResponse : Predict.Response -> result string.

Local Abbreviation predict :=
  (Predict.predict run_pipeline path_join path_name st_size exn_str
                   JSONResponse).
Local Abbreviation save_path := (Predict.save_path path_join).
Local Abbreviation saved := (Predict.saved path_join).
Local Abbreviation out_csv := (Predict.out_csv path_join).

Lemma predict_accepts upload :
  Predict.suffix_lower upload ∈ [".pcap"; ".pcapng"; ".csv"] <->
  negb (Predict.is_pcap upload || Predict.is_csv upload) = false.
Proof.
  unfold Predict.is_pcap, Predict.is_csv.
  rewrite negb_false_iff, orb_true_iff, !bool_decide_eq_true.
  rewrite !elem_of_cons, !elem_of_nil. tauto.
Qed.

(** X19: An upload is turned away with status 400 exactly when its suffix is
    none of [.pcap], [.pcapng] and [.csv]; then nothing is written and the
    pipeline is not called: the files are as they were. *)
Theorem predict_rejects_exactly_other_suffixes t1 t2 upload disk :
  ((exists d, snd (predict t1 t2 upload disk) = Predict.HTTPException 400 d)
   <-> Predict.suffix_lower upload ∉ [".pcap"; ".pcapng"; ".csv"]) /\
  (Predict.suffix_lower upload ∉ [".pcap"; ".pcapng"; ".csv"] ->
   predict t1 t2 upload disk =
   (disk, Predict.HTTPException 400
            "Invalid file type. Upload .pcap/.pcapng/.csv only.")).
Proof.
  pose proof (predict_accepts upload) as Hacc.
  unfold Predict.predict.
  destruct (negb (Predict.is_pcap upload || Predict.is_csv upload)) eqn:E.
  - assert (Hn : Predict.suffix_lower upload ∉ [".pcap"; ".pcapng"; ".csv"]).
    { intros H. apply Hacc in H. discriminate. }
    split; [| done]. split; [done | intros _; by eexists].
  - assert (Hy : Predict.suffix_lower upload ∈ [".pcap"; ".pcapng"; ".csv"])
      by (by apply Hacc).
    split; [| done]. split; [| done].
    intros [d H]. exfalso. revert H.
    destruct (run_pipeline _ _ _ _) as [disk2 [df | e]]; simpl.
    + destruct (df_getitem df "Label"); [| done].
      by destruct (JSONResponse _).
    + intros [=].
Qed.

(** X20: The upload is written under a name that was free, or, when its own
    name is taken, under that name with the clock reading in front; every
    other file is untouched by the write, so that an earlier upload of the
    same name is kept whenever the two paths differ. *)
Theorem predict_saves_beside_existing_upload t1 upload disk :
  saved t1 upload disk !! save_path t1 upload disk
  = Some (Predict.content upload) /\
  (forall p, p <> save_path t1 upload disk ->
     saved t1 upload disk !! p = disk !! p) /\
  (disk !! path_join Predict.UPLOAD_DIR (Predict.filename upload) = None ->
   save_path t1 upload disk
   = path_join Predict.UPLOAD_DIR (Predict.filename upload)) /\
  (forall old,
     disk !! path_join Predict.UPLOAD_DIR (Predict.filename upload)
     = Some old ->
     path_join Predict.UPLOAD_DIR
       (pretty t1 ++ "_" ++ Predict.filename upload)
     <> path_join Predict.UPLOAD_DIR (Predict.filename upload) ->
     saved t1 upload disk
       !! path_join Predict.UPLOAD_DIR (Predict.filename upload)
     = Some old).
Proof.
  unfold Predict.saved. split; [apply lookup_insert_eq |].
  split; [intros p Hp; by rewrite lookup_insert_ne |].
  unfold Predict.save_path. split.
  - intros H. rewrite bool_decide_eq_false_2; [done |].
    rewrite H. by intros [? ?].
  - intros old H Hne. rewrite bool_decide_eq_true_2 by (by rewrite H).
    by rewrite lookup_insert_ne.
Qed.

(** X21: An exception the pipeline raises on an accepted upload is caught
    and reported as status 500, the detail being ["Pipeline error: "]
    followed by the text [str(e)] of the exception; the pipeline had been
    given the files with the upload written, and the files are left as it
    left them. *)
Theorem predict_reports_pipeline_failure_as_500 t1 t2 upload disk e :
  Predict.suffix_lower upload ∈ [".pcap"; ".pcapng"; ".csv"] ->
  snd (run_pipeline (saved t1 upload disk) (save_path t1 upload disk)
         (out_csv t2) (Predict.is_pcap upload)) = Raise e ->
  predict t1 t2 upload disk =
  (fst (run_pipeline (saved t1 upload disk) (save_path t1 upload disk)
          (out_csv t2) (Predict.is_pcap upload)),
   Predict.HTTPException 500 ("Pipeline error: " ++ exn_str e)).
Proof.
  intros Hacc Hr. apply predict_accepts in Hacc.
  unfold Predict.predict. rewrite Hacc.
  destruct (run_pipeline _ _ _ _) as [disk2 r]. simpl in Hr. by subst r.
Qed.

(** X22: When the pipeline returns a table without a [Label] column, the
    handler ends with [KeyError('Label')], which nothing catches: the
    [try] covers the pipeline call only. *)
Theorem predict_raises_without_label_column t1 t2 upload disk df :
  Predict.suffix_lower upload ∈ [".pcap"; ".pcapng"; ".csv"] ->
  snd (run_pipeline (saved t1 upload disk) (save_path t1 upload disk)
         (out_csv t2) (Predict.is_pcap upload)) = Ok df ->
  ("Label" ∉ df_columns df) ->
  snd (predict t1 t2 upload disk) = Predict.Uncaught (KeyError "Label").
Proof.
  intros Hacc Hr Hno. apply predict_accepts in Hacc.
  unfold Predict.predict. rewrite Hacc.
  destruct (run_pipeline _ _ _ _) as [disk2 r]. simpl in Hr. subst r.
  unfold df_getitem.
  by rewrite (proj2 (column_index_elem "Label" (df_columns df)) Hno).
Qed.

(** The content [predict] hands to the encoder once the pipeline has
    returned a table with a label column. *)
Lemma predict_content t1 t2 upload disk df l :
  Predict.suffix_lower upload ∈ [".pcap"; ".pcapng"; ".csv"] ->
  snd (run_pipeline (saved t1 upload disk) (save_path t1 upload disk)
         (out_csv t2) (Predict.is_pcap upload)) = Ok df ->
  column_index "Label" (df_columns df) = Some l ->
  exists content,
    snd (predict t1 t2 upload disk)
    = match JSONResponse content with
      | Ok _ => Predict.Responds content
      | Raise x => Predict.Uncaught x
      end /\
    Predict.total_flows content = Z.of_nat (length (df_rows df)) /\
    Predict.summary content
    = value_counts (map (fun r => row_get r l) (df_rows df)) /\
    Predict.data_preview content = to_records (Predict.df_head 10 df) /\
    Predict.all_flows content = to_records df.
Proof.
  intros Hacc Hr Hl. apply predict_accepts in Hacc.
  unfold Predict.predict. rewrite Hacc.
  destruct (run_pipeline _ _ _ _) as [disk2 r]. simpl in Hr. subst r.
  unfold df_getitem. rewrite Hl. cbn zeta.
  match goal with |- context [JSONResponse ?content] => exists content end.
  split; [| done]. by destruct (JSONResponse _).
Qed.

(** X23: Whenever [predict] responds on a table the pipeline returned,
    the summary of the response lists the labels that occur in the table,
    each once with the number of its rows (so never a zero, and any label,
    not only the three of the live status); [total_flows] is the number of
    rows, [all_flows] has one record per row and [data_preview] is its
    first ten records, or all of them when there are fewer. *)
Theorem predict_summarises_labels_that_occur t1 t2 upload disk df l resp :
  Predict.suffix_lower upload ∈ [".pcap"; ".pcapng"; ".csv"] ->
  snd (run_pipeline (saved t1 upload disk) (save_path t1 upload disk)
         (out_csv t2) (Predict.is_pcap upload)) = Ok df ->
  column_index "Label" (df_columns df) = Some l ->
  snd (predict t1 t2 upload disk) = Predict.Responds resp ->
  Predict.total_flows resp = Z.of_nat (length (df_rows df)) /\
  (forall c n, (c, n) ∈ Predict.summary resp <->
     c ∈ map (fun r => row_get r l) (df_rows df) /\ isna c = false /\
     n = length (df_rows (df_where_eq df l c))) /\
  (forall c n, (c, n) ∈ Predict.summary resp -> 1 <= n) /\
  NoDup (map fst (Predict.summary resp)) /\
  length (list_items (Predict.all_flows resp)) = length (df_rows df) /\
  list_items (Predict.data_preview resp)
  = take 10 (list_items (Predict.all_flows resp)).
Proof.
  intros Hacc Hr Hl Hresp.
  destruct (predict_content t1 t2 upload disk df l Hacc Hr Hl)
    as (content & Hout & Hn & Hsum & Hprev & Hall).
  assert (resp = content) as ->.
  { rewrite Hresp in Hout.
    destruct (JSONResponse content); [by injection Hout | discriminate]. }
  split; [exact Hn |].
  rewrite Hsum, Hprev, Hall.
  assert (Hchar : forall c n,
    (c, n) ∈ value_counts (map (fun r => row_get r l) (df_rows df)) <->
    c ∈ map (fun r => row_get r l) (df_rows df) /\ isna c = false /\
    n = length (df_rows (df_where_eq df l c))).
  { intros c n. rewrite elem_of_value_counts.
    by rewrite (count_occ_column (fun r => row_get r l)). }
  split; [exact Hchar |]. split.
  { intros c n H. apply Hchar in H as (Hin & _ & ->).
    cbn [df_where_eq df_rows].
    rewrite <- (count_occ_column (fun r => row_get r l)).
    apply list_elem_of_In in Hin.
    exact (proj1 (count_occ_In cell_eq_dec _ _) Hin). }
  split; [rewrite value_counts_keys; apply NoDup_remove_dups |].
  unfold to_records, Predict.df_head. cbn [list_items df_rows df_columns].
  split; [by rewrite length_map |].
  symmetry. apply firstn_map.
Qed.

(** X24: Unlike the live status, [predict] does not clean what it
    encodes: when a cell of the pipeline's table is missing, the content
    handed to [JSONResponse] holds it as the not-a-number it is.  So with
    an encoder that refuses every content holding a not-a-number,
    [predict] ends with the encoder's exception, which nothing catches,
    and not with a response. *)
Theorem predict_passes_nan_to_encoder t1 t2 upload disk df l r i c :
  Predict.suffix_lower upload ∈ [".pcap"; ".pcapng"; ".csv"] ->
  snd (run_pipeline (saved t1 upload disk) (save_path t1 upload disk)
         (out_csv t2) (Predict.is_pcap upload)) = Ok df ->
  column_index "Label" (df_columns df) = Some l ->
  r ∈ df_rows df -> df_columns df !! i = Some c ->
  row_get r i = CFloat S754_nan ->
  (exists content,
     no_nan (Predict.all_flows content) = false /\
     snd (predict t1 t2 upload disk)
     = match JSONResponse content with
       | Ok _ => Predict.Responds content
       | Raise x => Predict.Uncaught x
       end) /\
  ((forall content, no_nan (Predict.all_flows content) = false ->
      exists x, JSONResponse content = Raise x) ->
   exists x, snd (predict t1 t2 upload disk) = Predict.Uncaught x).
Proof.
  intros Hacc Hr Hl Hin Hcol Hnan.
  destruct (predict_content t1 t2 upload disk df l Hacc Hr Hl)
    as (content & Hout & _ & _ & _ & Hall).
  assert (Hdirty : no_nan (Predict.all_flows content) = false).
  { rewrite Hall. unfold no_nan, to_records. cbn [all_floats].
    apply (forallb_false_elem _ _
             (VDict (imap (fun j k => (k, cell_value (row_get r j)))
                          (df_columns df)))).
    - apply list_elem_of_fmap. by exists r.
    - cbn [all_floats].
      apply (forallb_false_elem _ _ (c, cell_value (row_get r i))).
      + apply list_elem_of_lookup. exists i.
        by rewrite list_lookup_imap, Hcol.
      + by rewrite Hnan. }
  split; [by exists content |].
  intros Hrefuse. destruct (Hrefuse content Hdirty) as [x Hx].
  exists x. by rewrite Hout, Hx.
Qed.

End PredictFacts.

Lemma predict_rejects_exactly_other_suffixes_witness :
  (Predict.suffix_lower
     (Predict.mkUploadFile "notes.txt" ".txt" (FPcap []))
   ∉ [".pcap"; ".pcapng"; ".csv"]) /\
  Predict.predict failing_pipeline slash_join (fun p => p) (fun _ => 0%Z)
    message_of strict_encoder 1700000000 1700000001
    (Predict.mkUploadFile "notes.txt" ".txt" (FPcap [])) ∅
  = (∅, Predict.HTTPException 400
          "Invalid file type. Upload .pcap/.pcapng/.csv only.").
Proof.
  assert (H : Predict.suffix_lower
                 (Predict.mkUploadFile "notes.txt" ".txt" (FPcap []))
               ∉ [".pcap"; ".pcapng"; ".csv"]).
  { simpl. rewrite !elem_of_cons, elem_of_nil.
    intros [E | [E | [E | []]]]; discriminate E. }
  split; [exact H |].
  exact (proj2 (predict_rejects_exactly_other_suffixes failing_pipeline
                  slash_join (fun p => p) (fun _ => 0%Z) message_of
                  strict_encoder 1700000000 1700000001 _ ∅) H).
Defined.

Lemma predict_saves_beside_existing_upload_witness :
  let disk : gmap string file :=
    {[ "live/uploads/a.pcap" := FPcap [] ]} in
  disk !! slash_join Predict.UPLOAD_DIR (Predict.filename (pcap_upload "a.pcap"))
  = Some (FPcap []) /\
  Predict.saved slash_join 1700000000 (pcap_upload "a.pcap") disk
    !! slash_join Predict.UPLOAD_DIR (Predict.filename (pcap_upload "a.pcap"))
  = Some (FPcap []).
Proof.
  cbn zeta.
  assert (H1 : ({[ "live/uploads/a.pcap" := FPcap [] ]} : gmap string file)
               !! slash_join Predict.UPLOAD_DIR
                    (Predict.filename (pcap_upload "a.pcap"))
               = Some (FPcap [])) by reflexivity.
  split; [exact H1 |].
  apply (proj2 (proj2 (proj2 (predict_saves_beside_existing_upload slash_join
                  1700000000 (pcap_upload "a.pcap")
                  {[ "live/uploads/a.pcap" := FPcap [] ]}))) _ H1).
  vm_compute. discriminate.
Defined.

Lemma predict_reports_pipeline_failure_as_500_witness :
  Predict.suffix_lower (pcap_upload "a.pcap") ∈ [".pcap"; ".pcapng"; ".csv"] /\
  snd (Predict.predict failing_pipeline slash_join (fun p => p)
         (fun _ => 0%Z) message_of strict_encoder 1700000000 1700000001
         (pcap_upload "a.pcap") ∅)
  = Predict.HTTPException 500 "Pipeline error: model not loaded".
Proof.
  assert (H : Predict.suffix_lower (pcap_upload "a.pcap")
              ∈ [".pcap"; ".pcapng"; ".csv"]) by apply list_elem_of_here.
  split; [exact H |].
  rewrite (predict_reports_pipeline_failure_as_500 failing_pipeline
             slash_join (fun p => p) (fun _ => 0%Z) message_of strict_encoder
             1700000000 1700000001 (pcap_upload "a.pcap") ∅
             (PipelineError "model not loaded") H eq_refl).
  reflexivity.
Defined.

Lemma predict_raises_without_label_column_witness :
  Predict.suffix_lower (pcap_upload "a.pcap") ∈ [".pcap"; ".pcapng"; ".csv"] /\
  ("Label" ∉ df_columns unlabelled_table) /\
  snd (Predict.predict (constant_pipeline unlabelled_table) slash_join
         (fun p => p) (fun _ => 0%Z) message_of strict_encoder
         1700000000 1700000001 (pcap_upload "a.pcap") ∅)
  = Predict.Uncaught (KeyError "Label").
Proof.
  assert (H : Predict.suffix_lower (pcap_upload "a.pcap")
              ∈ [".pcap"; ".pcapng"; ".csv"]) by apply list_elem_of_here.
  assert (H2 : "Label" ∉ df_columns unlabelled_table).
  { simpl. rewrite list_elem_of_singleton. discriminate. }
  split; [exact H |]. split; [exact H2 |].
  exact (predict_raises_without_label_column
           (constant_pipeline unlabelled_table) slash_join (fun p => p)
           (fun _ => 0%Z) message_of strict_encoder 1700000000 1700000001
           (pcap_upload "a.pcap") ∅ unlabelled_table H eq_refl H2).
Defined.

Lemma predict_summarises_labels_that_occur_witness :
  Predict.suffix_lower (pcap_upload "a.pcap") ∈ [".pcap"; ".pcapng"; ".csv"] /\
  column_index "Label" (df_columns complete_table) = Some 1 /\
  exists resp,
    snd (Predict.predict (constant_pipeline complete_table) slash_join
           (fun p => p) (fun _ => 0%Z) message_of strict_encoder
           1700000000 1700000001 (pcap_upload "a.pcap") ∅)
    = Predict.Responds resp /\
    Predict.total_flows resp = 2%Z /\
    NoDup (map fst (Predict.summary resp)).
Proof.
  assert (H : Predict.suffix_lower (pcap_upload "a.pcap")
              ∈ [".pcap"; ".pcapng"; ".csv"]) by apply list_elem_of_here.
  assert (H2 : column_index "Label" (df_columns complete_table) = Some 1)
    by reflexivity.
  split; [exact H |]. split; [exact H2 |].
  eexists. split; [reflexivity |].
  match goal with
  | |- Predict.total_flows ?resp = _ /\ _ =>
    destruct (predict_summarises_labels_that_occur
                (constant_pipeline complete_table) slash_join (fun p => p)
                (fun _ => 0%Z) message_of strict_encoder
                1700000000 1700000001 (pcap_upload "a.pcap") ∅
                complete_table 1 resp H eq_refl H2 eq_refl)
      as (Hn & _ & _ & Hnd & _)
  end.
  split; [exact Hn | exact Hnd].
Defined.

Lemma predict_passes_nan_to_encoder_witness :
  Predict.suffix_lower (pcap_upload "a.pcap") ∈ [".pcap"; ".pcapng"; ".csv"] /\
  column_index "Label" (df_columns missing_rate_table) = Some 1 /\
  ([CFloat S754_nan; CStr "BENIGN"] ∈ df_rows missing_rate_table) /\
  df_columns missing_rate_table !! 0 = Some "Flow Bytes/s" /\
  row_get [CFloat S754_nan; CStr "BENIGN"] 0 = CFloat S754_nan /\
  (forall content, no_nan (Predict.all_flows content) = false ->
     exists x, strict_encoder content = Raise x) /\
  exists x,
    snd (Predict.predict (constant_pipeline missing_rate_table) slash_join
           (fun p => p) (fun _ => 0%Z) message_of strict_encoder
           1700000000 1700000001 (pcap_upload "a.pcap") ∅)
    = Predict.Uncaught x.
Proof.
  assert (H : Predict.suffix_lower (pcap_upload "a.pcap")
              ∈ [".pcap"; ".pcapng"; ".csv"]) by apply list_elem_of_here.
  assert (H2 : column_index "Label" (df_columns missing_rate_table) = Some 1)
    by reflexivity.
  assert (H3 : [CFloat S754_nan; CStr "BENIGN"] ∈ df_rows missing_rate_table)
    by apply list_elem_of_here.
  assert (H4 : forall content, no_nan (Predict.all_flows content) = false ->
                 exists x, strict_encoder content = Raise x).
  { intros content Hc. unfold strict_encoder. rewrite Hc. by eexists. }
  split; [exact H |]. split; [exact H2 |]. split; [exact H3 |].
  split; [reflexivity |]. split; [reflexivity |]. split; [exact H4 |].
  exact (proj2 (predict_passes_nan_to_encoder
                  (constant_pipeline missing_rate_table) slash_join
                  (fun p => p) (fun _ => 0%Z) message_of strict_encoder
                  1700000000 1700000001 (pcap_upload "a.pcap") ∅
                  missing_rate_table 1 _ 0 "Flow Bytes/s" H eq_refl H2 H3
                  eq_refl eq_refl) H4).
Defined.
